(** * L1BMODIS: band location, calibration and masking of MODIS Level-1B data

    A shallow embedding of [src/L1BMODIS.py] and the properties its
    specification states about it.

    - Floating-point samples are IEEE-754 values in the executable model of
      [Stdlib.Floats.SpecFloat]: binary64 for band data (the source casts with
      [astype(np.double)]) and binary32 for the MOD03 geolocation arrays.
      [S754_nan] is numpy's [np.nan], the "no data" marker.
    - Python exceptions are carried by a [result] type, named by their class.
    - An HDF file is the ordered list of its scientific data sets (SDS). *)

From Stdlib Require Import ZArith List String Ascii Bool Lia.
From Stdlib Require Import Floats.SpecFloat.
Import ListNotations.

Set Implicit Arguments.

(* ================================================================= *)
(** ** Python exceptions *)

(** An exception is identified by the name of its class. *)
Definition exn := string.

Inductive result (A : Type) : Type :=
| Ok (a : A)
| Raise (e : exn).

Arguments Ok {A} a.
Arguments Raise {A} e.

Definition bind {A B : Type} (r : result A) (k : A -> result B) : result B :=
  match r with
  | Ok a => k a
  | Raise e => Raise e
  end.

Declare Scope py_scope.
Delimit Scope py_scope with py.
Notation "x <- r ;; k" := (bind r (fun x => k))
  (at level 61, r at next level, right associativity) : py_scope.
Notation "' p <- r ;; k" := (bind r (fun p => k))
  (at level 61, p pattern, r at next level, right associativity) : py_scope.

Definition UnboundLocalError : exn := "UnboundLocalError"%string.
Definition HDF4Error : exn := "HDF4Error"%string.
Definition IndexError : exn := "IndexError"%string.
Definition ValueError : exn := "ValueError"%string.
Definition TypeError : exn := "TypeError"%string.
Definition AttributeError : exn := "AttributeError"%string.

(* ================================================================= *)
(** ** IEEE-754 arithmetic *)

(** Double precision, the type of [band_data] after [astype(np.double)]. *)
Module F64.
Definition prec : Z := 53.
Definition emax : Z := 1024.
Definition t := spec_float.
Definition nan : t := S754_nan.
Definition sub : t -> t -> t := SFsub prec emax.
Definition mul : t -> t -> t := SFmul prec emax.
(** numpy's [a > b], [a < b] and [a == b]; all are false on a NaN.
    [SFcompare] orders canonical values, which stored floats are. *)
Definition gt (a b : t) : bool := SFltb b a.
Definition lt (a b : t) : bool := SFltb a b.
Definition eq (a b : t) : bool := SFeqb a b.
Definition isnan (a : t) : bool :=
  match a with S754_nan => true | _ => false end.
(** Neither a NaN nor an infinity. *)
Definition is_finite (a : t) : bool :=
  match a with S754_zero _ | S754_finite _ _ _ => true | _ => false end.
(** Finite and not a zero. *)
Definition is_nonzero_finite (a : t) : bool :=
  match a with S754_finite _ _ _ => true | _ => false end.
Definition of_Z (z : Z) : t := binary_normalize prec emax z 0 false.
End F64.

(** Single precision, the type of the MOD03 latitude and longitude sets. *)
Module F32.
Definition prec : Z := 24.
Definition emax : Z := 128.
Definition t := spec_float.
Definition add : t -> t -> t := SFadd prec emax.
Definition lt (a b : t) : bool := SFltb a b.
Definition le (a b : t) : bool := SFleb a b.
Definition valid (a : t) : bool := valid_binary prec emax a.
Definition of_Z (z : Z) : t := binary_normalize prec emax z 0 false.
Definition zero : t := S754_zero false.
(** The value is a number, finite or infinite. *)
Definition isnan_free (a : t) : Prop :=
  match a with S754_nan => False | _ => True end.
End F32.

(* ================================================================= *)
(** ** numpy arrays *)

(** A 2-D grid, rows first. *)
Definition array2 (A : Type) := list (list A).

Definition cell {A : Type} (a : array2 A) (i j : nat) : option A :=
  match nth_error a i with
  | Some row => nth_error row j
  | None => None
  end.

Definition map2d {A B : Type} (f : A -> B) (a : array2 A) : array2 B :=
  map (map f) a.

(** [np.full(a.shape, x)] *)
Definition np_full {A B : Type} (a : array2 A) (x : B) : array2 B :=
  map2d (fun _ => x) a.

Fixpoint setitem_row {A : Type} (idx : list bool) (x : A) (row : list A) : list A :=
  match idx, row with
  | b :: idx', v :: row' => (if b then x else v) :: setitem_row idx' x row'
  | _, _ => row
  end.

(** [a[idx] = x] for a boolean index array [idx] of the shape of [a]. *)
Fixpoint setitem_mask {A : Type} (idx : array2 bool) (x : A) (a : array2 A) : array2 A :=
  match idx, a with
  | r :: idx', row :: a' => setitem_row r x row :: setitem_mask idx' x a'
  | _, _ => a
  end.

(** The array returned to the caller: bare, or wrapped by
    [np.ma.masked_array(data, mask)]. *)
Inductive band_array : Type :=
| Bare (data : array2 F64.t)
| MaskedArray (data : array2 F64.t) (mask : array2 bool).

Definition data_of (b : band_array) : array2 F64.t :=
  match b with
  | Bare d => d
  | MaskedArray d _ => d
  end.

(* ================================================================= *)
(** ** mask_bad_data *)

(** The dictionary built by [grab_scaling]. *)
Record scaling : Type := {
  validmin : F64.t;
  validmax : F64.t;
  fillval : F64.t;
  scale : F64.t;
  offset : F64.t
}.

(** The boolean array [invalid] after the three assignments. *)
Definition invalid_mask (band_data : array2 F64.t) (s : scaling) : array2 bool :=
  let invalid := np_full band_data false in
  let invalid := setitem_mask (map2d (fun v => F64.gt v (validmax s)) band_data) true invalid in
  let invalid := setitem_mask (map2d (fun v => F64.lt v (validmin s)) band_data) true invalid in
  let invalid := setitem_mask (map2d (fun v => F64.eq v (fillval s)) band_data) true invalid in
  invalid.

(** [mask_bad_data(band_data, scaling, apply_mask)].  The function assigns
    into [band_data], the caller's array; the first component of the result
    is the content of that array when the function returns, the second is
    the returned [offset_data]. *)
Definition mask_bad_data (band_data : array2 F64.t) (s : scaling) (apply_mask : bool)
  : array2 F64.t * band_array :=
  let invalid := invalid_mask band_data s in
  let band_data := setitem_mask invalid F64.nan band_data in
  let offset_data := map2d (fun v => F64.mul (F64.sub v (offset s)) (scale s)) band_data in
  if apply_mask
  then (band_data, MaskedArray offset_data (map2d F64.isnan offset_data))
  else (band_data, Bare offset_data).

(** The classification of one sample, as the specification words it. *)
Definition invalid_cell (s : scaling) (v : F64.t) : bool :=
  F64.gt v (validmax s) || F64.lt v (validmin s) || F64.eq v (fillval s).

(* ================================================================= *)
(** ** Python sequences and strings *)

Open Scope Z_scope.

(** [l[i]] for a Python integer [i]: a negative index counts from the end. *)
Definition py_getitem {A : Type} (l : list A) (i : Z) : result A :=
  let n := Z.of_nat (List.length l) in
  let k := if i <? 0 then i + n else i in
  if (0 <=? k) && (k <? n)
  then match nth_error l (Z.to_nat k) with
       | Some x => Ok x
       | None => Raise IndexError
       end
  else Raise IndexError.

(** Position of the first element satisfying [p]. *)
Fixpoint find_first {A : Type} (p : A -> bool) (l : list A) : option nat :=
  match l with
  | [] => None
  | x :: r => if p x then Some O
              else match find_first p r with
                   | Some i => Some (S i)
                   | None => None
                   end
  end.

(** [l.index(x)] on a list of strings. *)
Definition list_index (l : list string) (x : string) : result Z :=
  match find_first (String.eqb x) l with
  | Some i => Ok (Z.of_nat i)
  | None => Raise ValueError
  end.

(** [s.split(",")] *)
Fixpoint split_comma (s : string) : list string :=
  match s with
  | EmptyString => [EmptyString]
  | String c r =>
      if Ascii.eqb c ","%char then EmptyString :: split_comma r
      else match split_comma r with
           | h :: t => String c h :: t
           | [] => [String c EmptyString]
           end
  end.

(** [sub in s] *)
Fixpoint str_contains (sub s : string) : bool :=
  String.prefix sub s ||
  match s with
  | EmptyString => false
  | String _ r => str_contains sub r
  end.

(* ================================================================= *)
(** ** HDF4 files as pyhdf.SD presents them *)

(** The array of one data set, of rank 1, 2 or 3. *)
Inductive ndarray (A : Type) : Type :=
| Arr1 (l : list A)
| Arr2 (l : list (list A))
| Arr3 (l : list (list (list A))).

Definition nd_map {A B : Type} (f : A -> B) (a : ndarray A) : ndarray B :=
  match a with
  | Arr1 l => Arr1 (map f l)
  | Arr2 l => Arr2 (map (map f) l)
  | Arr3 l => Arr3 (map (map (map f)) l)
  end.

(** The entries along axis 0, each with its own cells in row-major order. *)
Definition axis0 {A : Type} (a : ndarray A) : list (list A) :=
  match a with
  | Arr1 l => map (fun x => [x]) l
  | Arr2 l => l
  | Arr3 l => map (@List.concat A) l
  end.

(** [band in numbers] *)
Definition np_contains (numbers : ndarray Z) (band : Z) : bool :=
  existsb (existsb (Z.eqb band)) (axis0 numbers).

(** [np.where(numbers == band)[0][0]] *)
Definition np_where0_first (numbers : ndarray Z) (band : Z) : result Z :=
  match find_first (existsb (Z.eqb band)) (axis0 numbers) with
  | Some i => Ok (Z.of_nat i)
  | None => Raise IndexError
  end.

(** [a[i, :, :]] *)
Definition plane {A : Type} (a : ndarray A) (i : Z) : result (array2 A) :=
  match a with
  | Arr3 l => py_getitem l i
  | _ => Raise IndexError
  end.

(** A stored attribute: a character string, or the values of a numeric
    attribute (read as Python numbers, that is as doubles). *)
Inductive attr : Type :=
| AStr (s : string)
| ANum (l : list F64.t).

(** What [SDAttr.get()] hands to Python. *)
Inductive pyval : Type :=
| PStr (s : string)
| PNum (x : F64.t)
| PList (l : list F64.t).

(** pyhdf returns a scalar for an attribute of exactly one value. *)
Definition attr_get (a : attr) : pyval :=
  match a with
  | AStr s => PStr s
  | ANum [x] => PNum x
  | ANum l => PList l
  end.

Record SDS (A : Type) : Type := {
  sds_name : string;
  sds_data : ndarray A;
  sds_attrs : list (string * attr)
}.

(** An open file: its data sets in file order. *)
Definition hdf (A : Type) := list (SDS A).

(** [hdf.select(name)] *)
Fixpoint select {A : Type} (f : hdf A) (name : string) : result (SDS A) :=
  match f with
  | [] => Raise HDF4Error
  | d :: r => if String.eqb (sds_name d) name then Ok d else select r name
  end.

(** [hdf.select(i)] for a position [i]. *)
Definition select_index {A : Type} (f : hdf A) (i : nat) : result (SDS A) :=
  match nth_error f i with
  | Some d => Ok d
  | None => Raise HDF4Error
  end.

Fixpoint find_attr (l : list (string * attr)) (name : string) : option attr :=
  match l with
  | [] => None
  | (n, a) :: r => if String.eqb n name then Some a else find_attr r name
  end.

(** [grab_attr(dataset, attr)] *)
Definition grab_attr {A : Type} (dataset : SDS A) (name : string) : result pyval :=
  match find_attr (sds_attrs dataset) name with
  | Some a => Ok (attr_get a)
  | None => Raise HDF4Error
  end.

(** [[a, b] = v] *)
Definition unpack2 (v : pyval) : result (pyval * pyval) :=
  match v with
  | PList [a; b] => Ok (PNum a, PNum b)
  | PList _ => Raise ValueError
  | PStr (String a (String b EmptyString)) =>
      Ok (PStr (String a EmptyString), PStr (String b EmptyString))
  | PStr _ => Raise ValueError
  | PNum _ => Raise TypeError
  end.

(** [v[i]] *)
Definition getitem (v : pyval) (i : Z) : result pyval :=
  match v with
  | PList l => x <- py_getitem l i ;; Ok (PNum x)
  | PStr s => c <- py_getitem (list_ascii_of_string s) i ;; Ok (PStr (String c EmptyString))
  | PNum _ => Raise TypeError
  end%py.

(** The value as the number numpy computes with.  The calibration
    attributes of a data set are numbers; a string or a sequence in the place
    of one is reported as the TypeError numpy raises when a string meets a
    float array in arithmetic. *)
Definition as_float (v : pyval) : result F64.t :=
  match v with
  | PNum x => Ok x
  | _ => Raise TypeError
  end.

(* ================================================================= *)
(** ** The Level-1B band file *)

Open Scope string_scope.
Open Scope py_scope.

Definition band_lists : list string :=
  ["Band_250M"; "Band_500M"; "Band_1KM_RefSB"; "Band_1KM_Emissive"].

Definition band_names : list string :=
  ["EV_250_Aggr1km_RefSB"; "EV_500_Aggr1km_RefSB"; "EV_1KM_RefSB"; "EV_1KM_Emissive"].

(** One value of the dictionary [band_info]. *)
Record band_entry : Type := {
  numbers : ndarray Z;
  field : string
}.

(** The files a path can name; [None] where nothing can be opened. *)
Definition filesystem (A : Type) := string -> option (hdf A).

(** [SD(file, SDC.READ)] *)
Definition SD {A : Type} (fs : filesystem A) (file : string) : result (hdf A) :=
  match fs file with
  | Some f => Ok f
  | None => Raise HDF4Error
  end.

(** What [get_hdf_data] returns: the full data set or one attribute. *)
Inductive data_or_attr (A : Type) : Type :=
| Data (a : ndarray A)
| Attr (v : pyval).

Arguments Attr {A} v.

(** The four groups in the order [locate_band] visits them, each with the
    data field that holds its samples. *)
Definition groups : list (string * string) := combine band_lists band_names.

(** [i] is the first position along axis 0 at which [band] occurs. *)
Definition first_at (rows : list (list Z)) (band : Z) (i : nat) : Prop :=
  (exists row, nth_error rows i = Some row /\ In band row)
  /\ (forall i' row', (i' < i)%nat -> nth_error rows i' = Some row' -> ~ In band row').

Section L1B.

(** The type of the samples a data set stores, with numpy's conversions
    [astype(int)] and [astype(np.double)] from it. *)
Variable sample : Type.
Variable astype_int : sample -> Z.
Variable astype_double : sample -> F64.t.

(** The band-number array of the group [key], as [locate_band] reads it:
    [hdf.select(key)[:].astype(int)]. *)
Definition band_numbers (f : hdf sample) (key : string) : result (ndarray Z) :=
  d <- select f key ;; Ok (nd_map astype_int (sds_data d)).

(** All the band tables named by [keys] can be read from the file. *)
Definition readable (f : hdf sample) (keys : list (string * string)) : Prop :=
  forall key fld, In (key, fld) keys -> exists n, band_numbers f key = Ok n.

(** No table named by [keys] lists [band]. *)
Definition absent (f : hdf sample) (keys : list (string * string)) (band : Z) : Prop :=
  forall key fld n, In (key, fld) keys ->
    band_numbers f key = Ok n -> np_contains n band = false.

(** [band_info] mirrors the list of groups, entry by entry. *)
Definition entry_of (f : hdf sample) (kf : string * string) (ke : string * band_entry) : Prop :=
  fst ke = fst kf /\ field (snd ke) = snd kf
  /\ band_numbers f (fst kf) = Ok (numbers (snd ke)).

(** The attribute family [grab_scaling] reads for a field. *)
Definition family (fld : string) : string :=
  if str_contains "Ref" fld then "reflectance" else "radiance".

(** The first loop of [locate_band]: [band_info], in insertion order. *)
Fixpoint load_band_info (f : hdf sample) (keys : list (string * string))
  : result (list (string * band_entry)) :=
  match keys with
  | [] => Ok []
  | (key, fld) :: rest =>
      d <- select f key ;;
      info <- load_band_info f rest ;;
      Ok ((key, {| numbers := nd_map astype_int (sds_data d); field := fld |}) :: info)
  end.

(** The second loop: [FI] holds [FIELD] and [INDEX] once they are bound. *)
Fixpoint locate_loop (band_info : list (string * band_entry)) (band : Z)
         (FI : option (string * Z)) : result (option (string * Z)) :=
  match band_info with
  | [] => Ok FI
  | (_, e) :: rest =>
      if np_contains (numbers e) band
      then INDEX <- np_where0_first (numbers e) band ;;
           locate_loop rest band (Some (field e, INDEX))
      else locate_loop rest band FI
  end.

Definition locate_band (f : hdf sample) (band : Z) : result (string * Z) :=
  band_info <- load_band_info f (combine band_lists band_names) ;;
  FI <- locate_loop band_info band None ;;
  match FI with
  | Some (FIELD, INDEX) => Ok (FIELD, INDEX)
  | None => Raise UnboundLocalError
  end.

(** [grab_scaling(hdf, field, index)].  The dictionary holds numbers: a
    value that is not one is reported by the TypeError it meets in
    [mask_bad_data]. *)
Definition grab_scaling (f : hdf sample) (fld : string) (index : Z) : result scaling :=
  dataset <- select f fld ;;
  vr <- grab_attr dataset "valid_range" ;;
  '(vmin, vmax) <- unpack2 vr ;;
  fill <- grab_attr dataset "_FillValue" ;;
  '(scales, offsets) <-
    (if str_contains "Ref" fld
     then scales <- grab_attr dataset "reflectance_scales" ;;
          offsets <- grab_attr dataset "reflectance_offsets" ;;
          Ok (scales, offsets)
     else scales <- grab_attr dataset "radiance_scales" ;;
          offsets <- grab_attr dataset "radiance_offsets" ;;
          Ok (scales, offsets)) ;;
  sc <- getitem scales index ;;
  off <- getitem offsets index ;;
  vmax' <- as_float vmax ;;
  vmin' <- as_float vmin ;;
  fill' <- as_float fill ;;
  off' <- as_float off ;;
  sc' <- as_float sc ;;
  Ok {| validmin := vmin'; validmax := vmax'; fillval := fill';
        scale := sc'; offset := off' |}.

Definition load_MODIS1KMband (fs : filesystem sample) (file : string) (band : Z)
           (apply_scaling apply_mask : bool) : result band_array :=
  f <- SD fs file ;;
  '(FIELD, INDEX) <- locate_band f band ;;
  d <- select f FIELD ;;
  raw <- plane (sds_data d) INDEX ;;
  let band_data := map2d astype_double raw in
  if apply_scaling
  then s <- grab_scaling f FIELD INDEX ;;
       Ok (snd (mask_bad_data band_data s apply_mask))
  else Ok (Bare band_data).

Definition get_hdf_data (fs : filesystem sample) (file dataset : string)
           (attr : option string) : result (data_or_attr sample) :=
  f <- SD fs file ;;
  data <- select f dataset ;;
  match attr with
  | None => Ok (Data (sds_data data))
  | Some a => v <- grab_attr data a ;; Ok (Attr v)
  end.

(** [get_hdf_data(file, dataset, None)[i, :, :]] *)
Definition data_plane (r : data_or_attr sample) (i : Z) : result (array2 sample) :=
  match r with
  | Data a => plane a i
  | Attr _ => Raise TypeError
  end.

(** [get_hdf_data(file, dataset, name)[i]] *)
Definition attr_item (r : data_or_attr sample) (i : Z) : result pyval :=
  match r with
  | Attr v => getitem v i
  | Data _ => Raise TypeError
  end.

Definition attr_value (r : data_or_attr sample) : result pyval :=
  match r with
  | Attr v => Ok v
  | Data _ => Raise TypeError
  end.

(** [band_names.split(",").index(band)] *)
Definition label_index (names : data_or_attr sample) (band : string) : result Z :=
  match names with
  | Attr (PStr s) => list_index (split_comma s) band
  | _ => Raise AttributeError
  end.

Definition load_MODISband_old (fs : filesystem sample) (file dataset band refrad : string)
  : result band_array :=
  names <- get_hdf_data fs file dataset (Some "band_names") ;;
  full <- get_hdf_data fs file dataset None ;;
  i <- label_index names band ;;
  raw <- data_plane full i ;;
  let band_data := map2d astype_double raw in
  so <-
    (if String.eqb refrad "reflectance"
     then a <- get_hdf_data fs file dataset (Some "reflectance_scales") ;;
          i <- label_index names band ;;
          scales <- attr_item a i ;;
          b <- get_hdf_data fs file dataset (Some "reflectance_offsets") ;;
          i <- label_index names band ;;
          offsets <- attr_item b i ;;
          Ok (Some (scales, offsets))
     else if String.eqb refrad "radiance"
     then a <- get_hdf_data fs file dataset (Some "radiance_scales") ;;
          i <- label_index names band ;;
          scales <- attr_item a i ;;
          b <- get_hdf_data fs file dataset (Some "radiance_offsets") ;;
          i <- label_index names band ;;
          offsets <- attr_item b i ;;
          Ok (Some (scales, offsets))
     else Ok None) ;;
  vr0 <- get_hdf_data fs file dataset (Some "valid_range") ;;
  vmin <- attr_item vr0 0 ;;
  vr1 <- get_hdf_data fs file dataset (Some "valid_range") ;;
  vmax <- attr_item vr1 1 ;;
  fv <- get_hdf_data fs file dataset (Some "_FillValue") ;;
  fill <- attr_value fv ;;
  vmax' <- as_float vmax ;;
  vmin' <- as_float vmin ;;
  fill' <- as_float fill ;;
  let invalid :=
    map2d (fun v => (F64.gt v vmax' || F64.lt v vmin') || F64.eq v fill') band_data in
  let band_data := setitem_mask invalid F64.nan band_data in
  match so with
  | None => Raise UnboundLocalError
  | Some (scales, offsets) =>
      off' <- as_float offsets ;;
      sc' <- as_float scales ;;
      let band_data := map2d (fun v => F64.mul (F64.sub v off') sc') band_data in
      Ok (MaskedArray band_data (map2d F64.isnan band_data))
  end.

End L1B.

(* ================================================================= *)
(** ** The geolocation file *)

(** The Python integer 360 as a single-precision value. *)
Definition f360 : F32.t := F32.of_Z 360.

(** One cell of [geolon[geolon<0] += 360]. *)
Definition normalize_lon (v : F32.t) : F32.t :=
  if F32.lt v F32.zero then F32.add v f360 else v.

(** A single-precision value that is zero or positive and at most 360:
    a mantissa [m] at exponent [e] stands for [m * 2^e], and 360 = 45 * 2^3. *)
Definition in_0_360 (r : F32.t) : Prop :=
  match r with
  | S754_zero _ => True
  | S754_finite false m e => (e <= -15)%Z /\ (Zpos m <= 45 * 2 ^ (3 - e))%Z
  | _ => False
  end.

(** [get_MODISgeo(geofile)].  When the file cannot be opened the handler
    prints the error and goes on, and [f] is unbound at its first use. *)
Definition get_MODISgeo (fs : filesystem F32.t) (geofile : string)
  : result (ndarray F32.t * ndarray F32.t) :=
  match fs geofile with
  | None => Raise UnboundLocalError
  | Some f =>
      d0 <- select_index f 0 ;;
      let geolat := sds_data d0 in
      d1 <- select_index f 1 ;;
      let geolon := sds_data d1 in
      let geolon := nd_map normalize_lon geolon in
      Ok (geolon, geolat)
  end.

(* ================================================================= *)
(** ** The other readers *)

(** [load_coords(hdf)]: the two data sets named Latitude and Longitude. *)
Definition load_coords {A : Type} (f : hdf A) : result (ndarray A * ndarray A) :=
  lat <- select f "Latitude" ;;
  lon <- select f "Longitude" ;;
  Ok (sds_data lat, sds_data lon).

(** The keys of a dictionary filled in the order of [names]: a name met
    again keeps its first place. *)
Fixpoint dict_keys (names : list string) : list string :=
  match names with
  | [] => []
  | x :: r => x :: filter (fun y => negb (String.eqb x y)) (dict_keys r)
  end.

(** [print_hdf_contents(file)]: the keys of [f.datasets()], which pyhdf
    fills data set by data set in file order.  (The list is also printed.) *)
Definition print_hdf_contents {A : Type} (fs : filesystem A) (file : string)
  : result (list string) :=
  f <- SD fs file ;;
  Ok (dict_keys (map (@sds_name A) f)).

(** A geolocation file as MOD03 names its first two data sets. *)
Definition named_geo (f : hdf F32.t) (d0 d1 : SDS F32.t) : Prop :=
  nth_error f 0 = Some d0 /\ nth_error f 1 = Some d1
  /\ sds_name d0 = "Latitude" /\ sds_name d1 = "Longitude".

(* ================================================================= *)
(** ** Sample inputs *)

(** The calibration of a 15-bit reflective band: counts 0..32767 are valid,
    65535 is the fill value, reflectance = (count - 0) * 1. *)
Definition sample_scaling : scaling :=
  {| validmin := F64.of_Z 0; validmax := F64.of_Z 32767; fillval := F64.of_Z 65535;
     scale := F64.of_Z 1; offset := F64.of_Z 0 |}.

(** A band file whose data sets hold integers.  Band 5 is listed by two
    groups, band 99 by none. *)
Definition sample_attrs (names : string) (scales offsets : list Z) (family : string)
  : list (string * attr) :=
  [("band_names", AStr names);
   ("valid_range", ANum [F64.of_Z 0; F64.of_Z 32767]);
   ("_FillValue", ANum [F64.of_Z 65535]);
   (family ++ "_scales", ANum (map F64.of_Z scales));
   (family ++ "_offsets", ANum (map F64.of_Z offsets))].

Definition sample_EV_250 : SDS Z :=
  {| sds_name := "EV_250_Aggr1km_RefSB";
     sds_data := Arr3 [[[10; 65535]]; [[20; 40000]]; [[30; 31]]];
     sds_attrs := sample_attrs "1,2,3" [2; 3; 4] [1; 0; 0] "reflectance" |}.

Definition sample_EV_1KM_Emissive : SDS Z :=
  {| sds_name := "EV_1KM_Emissive";
     sds_data := Arr3 [[[21; 22]]; [[23; 24]]];
     sds_attrs := sample_attrs "20,21" [4; 5] [6; 7] "radiance" |}.

Definition sample_file : hdf Z :=
  [ {| sds_name := "Band_250M"; sds_data := Arr1 [1; 2; 3]; sds_attrs := [] |};
    {| sds_name := "Band_500M"; sds_data := Arr1 [4; 5; 6; 7]; sds_attrs := [] |};
    {| sds_name := "Band_1KM_RefSB"; sds_data := Arr1 [8; 5; 9]; sds_attrs := [] |};
    {| sds_name := "Band_1KM_Emissive"; sds_data := Arr1 [20; 21]; sds_attrs := [] |};
    sample_EV_250;
    {| sds_name := "EV_500_Aggr1km_RefSB";
       sds_data := Arr3 [[[1; 2]]; [[3; 4]]; [[5; 6]]; [[7; 8]]];
       sds_attrs := sample_attrs "4,5,6,7" [1; 2; 3; 4] [0; 0; 0; 0] "reflectance" |};
    {| sds_name := "EV_1KM_RefSB";
       sds_data := Arr3 [[[11; 12]]; [[13; 14]]; [[15; 16]]];
       sds_attrs := sample_attrs "8,5,9" [1; 2; 3] [0; 1; 2] "reflectance" |};
    sample_EV_1KM_Emissive ].

(** A file system with that one file. *)
Definition sample_fs : filesystem Z :=
  fun path => if String.eqb path "MOD021KM.hdf" then Some sample_file else None.

(** A geolocation file: latitude at position 0, longitude at position 1. *)
Definition sample_geo : hdf F32.t :=
  [ {| sds_name := "Latitude";
       sds_data := Arr2 [[F32.of_Z 10; F32.of_Z 11]]; sds_attrs := [] |};
    {| sds_name := "Longitude";
       sds_data := Arr2 [[F32.of_Z (-10); F32.of_Z 20]]; sds_attrs := [] |} ].

Definition sample_geo_fs : filesystem F32.t :=
  fun path => if String.eqb path "MOD03.hdf" then Some sample_geo else None.

(** A grid with one valid count, the fill value, and a cell that is already
    "no data" (as in an array that went through [mask_bad_data] before). *)
Definition sample_grid : array2 F64.t :=
  [[F64.of_Z 100; F64.of_Z 65535]; [F64.nan; F64.of_Z 7]].

(* ================================================================= *)
(** * Properties *)

(** ** Arrays *)

Lemma cell_map2d {A B : Type} (f : A -> B) (a : array2 A) (i j : nat) :
  cell (map2d f a) i j = option_map f (cell a i j).
Proof.
  unfold cell, map2d. rewrite nth_error_map.
  destruct (nth_error a i) as [row|]; simpl; [|reflexivity].
  apply nth_error_map.
Qed.

Lemma setitem_row_map {A B : Type} (p : A -> bool) (g : A -> B) (x : B) (row : list A) :
  setitem_row (map p row) x (map g row) = map (fun v => if p v then x else g v) row.
Proof.
  induction row as [|v row IH]; simpl; [reflexivity|]. now rewrite IH.
Qed.

Lemma setitem_mask_map2d {A B : Type} (p : A -> bool) (g : A -> B) (x : B) (a : array2 A) :
  setitem_mask (map2d p a) x (map2d g a) = map2d (fun v => if p v then x else g v) a.
Proof.
  unfold map2d. induction a as [|row a IH]; simpl; [reflexivity|].
  now rewrite setitem_row_map, IH.
Qed.

Lemma map2d_id {A : Type} (a : array2 A) : map2d (fun v => v) a = a.
Proof.
  unfold map2d. induction a as [|row a IH]; simpl; [reflexivity|].
  now rewrite map_id, IH.
Qed.

Lemma map2d_ext {A B : Type} (f g : A -> B) (a : array2 A) :
  (forall v, f v = g v) -> map2d f a = map2d g a.
Proof.
  intros E. unfold map2d. apply map_ext. intros row. now apply map_ext.
Qed.

Lemma map2d_map2d {A B C : Type} (f : A -> B) (g : B -> C) (a : array2 A) :
  map2d g (map2d f a) = map2d (fun v => g (f v)) a.
Proof.
  unfold map2d. rewrite map_map. apply map_ext. intros row. apply map_map.
Qed.

Lemma setitem_mask_self {A : Type} (p : A -> bool) (x : A) (a : array2 A) :
  setitem_mask (map2d p a) x a = map2d (fun v => if p v then x else v) a.
Proof.
  rewrite <- (map2d_id a) at 2. apply setitem_mask_map2d.
Qed.

(** ** The invalidity mask *)

(** The array [invalid] holds, cell by cell, the union of the three tests. *)
Lemma invalid_mask_cells (band_data : array2 F64.t) (s : scaling) :
  invalid_mask band_data s = map2d (invalid_cell s) band_data.
Proof.
  unfold invalid_mask, np_full.
  rewrite !setitem_mask_map2d. apply map2d_ext. intros v.
  unfold invalid_cell.
  destruct (F64.gt v (validmax s)), (F64.lt v (validmin s)), (F64.eq v (fillval s));
    reflexivity.
Qed.

(** The two arrays [mask_bad_data] leaves behind, cell by cell. *)
Lemma mask_bad_data_input (band_data : array2 F64.t) (s : scaling) (m : bool) :
  fst (mask_bad_data band_data s m)
  = map2d (fun v => if invalid_cell s v then F64.nan else v) band_data.
Proof.
  unfold mask_bad_data. rewrite invalid_mask_cells, setitem_mask_self.
  destruct m; reflexivity.
Qed.

Lemma mask_bad_data_output (band_data : array2 F64.t) (s : scaling) (m : bool) :
  data_of (snd (mask_bad_data band_data s m))
  = map2d (fun v => F64.mul (F64.sub (if invalid_cell s v then F64.nan else v) (offset s))
                            (scale s)) band_data.
Proof.
  unfold mask_bad_data. rewrite invalid_mask_cells, setitem_mask_self, map2d_map2d.
  destruct m; reflexivity.
Qed.

(** A NaN is never classified invalid: every comparison with it is false. *)
Lemma invalid_cell_nan (s : scaling) : invalid_cell s F64.nan = false.
Proof.
  unfold invalid_cell, F64.gt, F64.lt, F64.eq, SFltb, SFeqb, F64.nan.
  destruct (validmax s), (validmin s), (fillval s); reflexivity.
Qed.

Lemma invalid_cell_not_nan (s : scaling) (v : F64.t) :
  invalid_cell s v = true -> v <> F64.nan.
Proof.
  intros H E. subst v. rewrite invalid_cell_nan in H. discriminate.
Qed.

(** ** Rounding never invents a NaN *)

Section RoundNotNan.
Variables prec emax : Z.

Lemma shr_1_nonneg mrs : (0 <= shr_m mrs)%Z -> (0 <= shr_m (shr_1 mrs))%Z.
Proof.
  destruct mrs as [m r s]. simpl. intros H.
  destruct m as [|p|p]; [simpl; lia| |lia].
  destruct p; simpl; lia.
Qed.

Lemma iter_shr_1_nonneg p : forall mrs,
  (0 <= shr_m mrs)%Z -> (0 <= shr_m (iter_pos shr_1 p mrs))%Z.
Proof.
  induction p as [p IH|p IH|]; intros mrs H; simpl.
  - apply IH, IH, shr_1_nonneg, H.
  - apply IH, IH, H.
  - apply shr_1_nonneg, H.
Qed.

Lemma shr_nonneg mrs e n : (0 <= shr_m mrs)%Z -> (0 <= shr_m (fst (shr mrs e n)))%Z.
Proof.
  intros H. destruct n; simpl; auto. now apply iter_shr_1_nonneg.
Qed.

Lemma shr_fexp_nonneg m e l :
  (0 <= m)%Z -> (0 <= shr_m (fst (shr_fexp prec emax m e l)))%Z.
Proof.
  intros H. unfold shr_fexp. apply shr_nonneg.
  destruct l as [|[]]; simpl; exact H.
Qed.

Lemma round_nearest_even_nonneg m l : (0 <= m)%Z -> (0 <= round_nearest_even m l)%Z.
Proof.
  intros H. destruct l as [|[]]; simpl; try lia.
  destruct (Z.even m); lia.
Qed.

Lemma binary_round_aux_not_nan sx mx ex lx :
  (0 <= mx)%Z -> binary_round_aux prec emax sx mx ex lx <> S754_nan.
Proof.
  intros H. unfold binary_round_aux.
  pose proof (shr_fexp_nonneg ex lx H) as H1.
  destruct (shr_fexp prec emax mx ex lx) as [mrs' e']. simpl in H1.
  pose proof (round_nearest_even_nonneg (loc_of_shr_record mrs') H1) as H2.
  pose proof (shr_fexp_nonneg e' loc_Exact H2) as H3.
  destruct (shr_fexp prec emax _ e' loc_Exact) as [mrs'' e'']. simpl in H3.
  destruct (shr_m mrs'') as [|m|m]; [discriminate| |lia].
  destruct (Z.leb e'' (emax - prec)); discriminate.
Qed.

Lemma binary_round_not_nan sx mx ex : binary_round prec emax sx mx ex <> S754_nan.
Proof.
  unfold binary_round.
  destruct (shl_align mx ex _) as [mz ez].
  apply binary_round_aux_not_nan. lia.
Qed.

Lemma binary_normalize_not_nan m e szero :
  binary_normalize prec emax m e szero <> S754_nan.
Proof.
  destruct m; simpl; [discriminate| |]; apply binary_round_not_nan.
Qed.

Lemma SFsub_not_nan x y :
  x <> S754_nan -> F64.is_finite y = true -> SFsub prec emax x y <> S754_nan.
Proof.
  intros Hx Hy.
  destruct x as [sx|sx| |sx mx ex], y as [sy|sy| |sy my ey];
    try discriminate; try congruence; simpl.
  - destruct sx, sy; discriminate.
  - apply binary_normalize_not_nan.
Qed.

Lemma SFmul_not_nan x sy my ey :
  x <> S754_nan -> SFmul prec emax x (S754_finite sy my ey) <> S754_nan.
Proof.
  intros Hx.
  destruct x as [sx|sx| |sx mx ex]; try discriminate; try congruence; simpl.
  apply binary_round_aux_not_nan. lia.
Qed.
End RoundNotNan.

(** ** mask_bad_data: classification, masking and calibration (C1) *)

(** C1, as the code has it.  For every grid, calibration and cell holding
    [v]: the cell of [invalid] is the union of the three tests
    [v > validmax], [v < validmin], [v == fillval]; an invalid cell is NaN
    ("no data") in the output; every other cell holds
    [(v - offset) * scale], which is not a NaN as soon as [v] is not one
    itself, [offset] is finite and [scale] is finite and not zero. *)
Theorem mask_bad_data_cells
  (band_data : array2 F64.t) (s : scaling) (apply_mask : bool) (i j : nat) (v : F64.t) :
  cell band_data i j = Some v ->
  cell (invalid_mask band_data s) i j
  = Some (F64.gt v (validmax s) || F64.lt v (validmin s) || F64.eq v (fillval s))
  /\ (invalid_cell s v = true ->
      cell (data_of (snd (mask_bad_data band_data s apply_mask))) i j = Some F64.nan)
  /\ (invalid_cell s v = false ->
      cell (data_of (snd (mask_bad_data band_data s apply_mask))) i j
      = Some (F64.mul (F64.sub v (offset s)) (scale s)))
  /\ (invalid_cell s v = false ->
      F64.isnan v = false ->
      F64.is_finite (offset s) = true ->
      F64.is_nonzero_finite (scale s) = true ->
      F64.isnan (F64.mul (F64.sub v (offset s)) (scale s)) = false).
Proof.
  intros Hv. rewrite invalid_mask_cells, mask_bad_data_output, !cell_map2d, Hv. simpl.
  split; [reflexivity|]. split; [|split].
  - intros ->. unfold F64.sub, F64.mul, F64.nan. simpl. reflexivity.
  - intros ->. reflexivity.
  - intros _ Hnan Hoff Hsc.
    destruct (scale s) as [| | |sy my ey] eqn:Es; try discriminate.
    assert (Hv' : v <> S754_nan) by (intros ->; discriminate).
    pose proof (@SFsub_not_nan F64.prec F64.emax v (offset s) Hv' Hoff) as H1.
    pose proof (@SFmul_not_nan F64.prec F64.emax _ sy my ey H1) as H2.
    unfold F64.mul, F64.sub.
    destruct (SFmul F64.prec F64.emax _ _); try reflexivity. congruence.
Qed.

(** The theorem at the valid count 100 of the sample grid. *)
Lemma mask_bad_data_cells_witness :
  cell (invalid_mask sample_grid sample_scaling) 0 0 = Some false
  /\ cell (data_of (snd (mask_bad_data sample_grid sample_scaling false))) 0 0
     = Some (F64.of_Z 100).
Proof.
  destruct (@mask_bad_data_cells sample_grid sample_scaling false 0 0 (F64.of_Z 100)
              eq_refl) as (H1 & _ & H3 & _).
  split; [exact H1 | exact (H3 eq_refl)].
Defined.

(** A cell that is already NaN passes the three tests, so it is not
    classified invalid, yet it is "no data" in the output: "no data" cells are
    not exactly the invalid ones. *)
Lemma mask_bad_data_nan_cell_counterexample :
  ~ (forall i j v out,
        cell sample_grid i j = Some v ->
        cell (data_of (snd (mask_bad_data sample_grid sample_scaling false))) i j = Some out ->
        (F64.isnan out = true <-> invalid_cell sample_scaling v = true)).
Proof.
  intros H.
  destruct (H 1%nat 0%nat F64.nan F64.nan eq_refl eq_refl) as [H1 _].
  specialize (H1 eq_refl). vm_compute in H1. discriminate.
Qed.

(** ** mask_bad_data: the caller's array (C10) *)

(** C10.  When [mask_bad_data] returns, every cell of the caller's array that
    was classified invalid holds NaN and every other cell holds what it held;
    so the array has changed as soon as one cell was invalid. *)
Theorem mask_bad_data_mutates_input
  (band_data : array2 F64.t) (s : scaling) (apply_mask : bool) (i j : nat) (v : F64.t) :
  cell band_data i j = Some v ->
  cell (fst (mask_bad_data band_data s apply_mask)) i j
  = Some (if invalid_cell s v then F64.nan else v)
  /\ (invalid_cell s v = true -> fst (mask_bad_data band_data s apply_mask) <> band_data).
Proof.
  intros Hv. rewrite mask_bad_data_input, cell_map2d, Hv. simpl.
  split; [reflexivity|].
  intros Hinv E.
  assert (C : cell (map2d (fun v => if invalid_cell s v then F64.nan else v) band_data) i j
              = Some v) by (rewrite E; exact Hv).
  rewrite cell_map2d, Hv in C. simpl in C. rewrite Hinv in C.
  apply (invalid_cell_not_nan s Hinv). congruence.
Qed.

(** The theorem at the fill-valued cell of the sample grid. *)
Lemma mask_bad_data_mutates_input_witness :
  cell (fst (mask_bad_data sample_grid sample_scaling true)) 0 1 = Some F64.nan
  /\ fst (mask_bad_data sample_grid sample_scaling true) <> sample_grid.
Proof.
  destruct (@mask_bad_data_mutates_input sample_grid sample_scaling true 0 1
              (F64.of_Z 65535) eq_refl) as [H1 H2].
  split; [exact H1 | exact (H2 eq_refl)].
Defined.

(** ** Searching a sequence *)

Lemma find_first_Some {A : Type} (p : A -> bool) (l : list A) (i : nat) :
  find_first p l = Some i ->
  (exists x, nth_error l i = Some x /\ p x = true)
  /\ (forall i' x', (i' < i)%nat -> nth_error l i' = Some x' -> p x' = false).
Proof.
  revert i. induction l as [|x l IH]; intros i; simpl; [discriminate|].
  destruct (p x) eqn:Px.
  - intros [= <-]. split; [exists x; auto|]. intros i' x' Hlt. lia.
  - destruct (find_first p l) as [k|]; [|discriminate].
    intros [= <-]. destruct (IH k eq_refl) as [H1 H2]. split; [exact H1|].
    intros [|i'] x' Hlt; simpl.
    + intros [= <-]. exact Px.
    + apply H2. lia.
Qed.

Lemma find_first_existsb {A : Type} (p : A -> bool) (l : list A) :
  existsb p l = true -> exists i, find_first p l = Some i.
Proof.
  induction l as [|x l IH]; simpl; [discriminate|].
  destruct (p x); [eauto|]. simpl. intros H.
  destruct (IH H) as [i ->]. eauto.
Qed.

Lemma existsb_eqb_In (band : Z) (row : list Z) :
  existsb (Z.eqb band) row = true <-> In band row.
Proof.
  rewrite existsb_exists. split.
  - intros (x & Hx & E). apply Z.eqb_eq in E. now subst.
  - intros H. exists band. split; [exact H | apply Z.eqb_refl].
Qed.

(** [np.where(numbers == band)[0][0]] succeeds whenever [band in numbers]
    holds, and yields the first position of [band] along axis 0. *)
Lemma np_where0_first_spec (numbers : ndarray Z) (band : Z) :
  np_contains numbers band = true ->
  exists i, np_where0_first numbers band = Ok (Z.of_nat i)
            /\ first_at (axis0 numbers) band i.
Proof.
  unfold np_contains, np_where0_first. intros H.
  destruct (find_first_existsb _ _ H) as [i E]. rewrite E. exists i.
  split; [reflexivity|].
  destruct (find_first_Some _ _ E) as [(row & Hr & Hp) Hmin]. split.
  - exists row. split; [exact Hr | now apply existsb_eqb_In].
  - intros i' row' Hlt Hr' Hin. apply existsb_eqb_In in Hin.
    rewrite (Hmin i' row' Hlt Hr') in Hin. discriminate.
Qed.

(** For a rank-1 table the first position holds the band number itself. *)
Lemma first_at_rank1 (l : list Z) (band : Z) (i : nat) :
  first_at (axis0 (Arr1 l)) band i ->
  nth_error l i = Some band
  /\ (forall i', (i' < i)%nat -> nth_error l i' <> Some band).
Proof.
  simpl. intros [(row & Hr & Hin) Hmin]. split.
  - rewrite nth_error_map in Hr. destruct (nth_error l i) as [x|]; [|discriminate].
    simpl in Hr. injection Hr as <-. destruct Hin as [->|[]]. reflexivity.
  - intros i' Hlt E. apply (Hmin i' [band] Hlt).
    + rewrite nth_error_map, E. reflexivity.
    + now left.
Qed.

(** ** locate_band (C2, C3, C4) *)

Section LocateBand.

Variable sample : Type.
Variable astype_int : sample -> Z.
Variable f : hdf sample.

Local Abbreviation readable := (readable astype_int f).
Local Abbreviation absent := (absent astype_int f).
Local Abbreviation entry_of := (entry_of astype_int f).

Lemma load_band_info_spec keys : forall info,
  load_band_info astype_int f keys = Ok info -> Forall2 entry_of keys info.
Proof.
  induction keys as [|[key fld] keys IH]; intros info; simpl.
  - intros [= <-]. constructor.
  - unfold bind at 1. destruct (select f key) as [d|e] eqn:Ed; [|discriminate].
    unfold bind at 1. destruct (load_band_info astype_int f keys) as [info'|e];
      [|discriminate].
    intros [= <-]. constructor; [|now apply IH].
    unfold entry_of, band_numbers. simpl. rewrite Ed. simpl. auto.
Qed.

Lemma load_band_info_total keys :
  readable keys -> exists info, load_band_info astype_int f keys = Ok info.
Proof.
  induction keys as [|[key fld] keys IH]; intros Hr; simpl; [eauto|].
  destruct (Hr key fld (or_introl eq_refl)) as [n Hn].
  unfold band_numbers in Hn. destruct (select f key) as [d|e]; [|discriminate].
  destruct IH as [info ->].
  - intros k fl Hin. apply (Hr k fl). now right.
  - simpl. eauto.
Qed.

Lemma locate_loop_app (a b : list (string * band_entry)) (band : Z) : forall FI,
  locate_loop (a ++ b) band FI = (r <- locate_loop a band FI ;; locate_loop b band r).
Proof.
  induction a as [|[k e] a IH]; intros FI; simpl; [reflexivity|].
  destruct (np_contains (numbers e) band); [|apply IH].
  destruct (np_where0_first (numbers e) band); simpl; [apply IH | reflexivity].
Qed.

(** The loop never fails: the index is searched only where the band occurs. *)
Lemma locate_loop_total (info : list (string * band_entry)) (band : Z) : forall FI,
  exists r, locate_loop info band FI = Ok r.
Proof.
  induction info as [|[k e] info IH]; intros FI; simpl; [eauto|].
  destruct (np_contains (numbers e) band) eqn:C; [|apply IH].
  destruct (np_where0_first_spec _ _ C) as (i & -> & _). simpl. apply IH.
Qed.

Lemma locate_loop_absent keys (band : Z) : forall info FI,
  Forall2 entry_of keys info -> absent keys band -> locate_loop info band FI = Ok FI.
Proof.
  induction keys as [|[key fld] keys IH]; intros info FI H Habs; inversion H; subst;
    [reflexivity|].
  match goal with E : entry_of _ ?y |- _ => destruct y as [k e]; destruct E as (_ & _ & Hn) end.
  simpl in *. rewrite (Habs key fld _ (or_introl eq_refl) Hn).
  apply IH; [assumption|]. intros k' fl' n' Hin. apply (Habs k' fl' n'). now right.
Qed.

(** The last group, in the order of [keys], that lists the band decides. *)
Lemma locate_loop_last before key fld after n (band : Z) info FI :
  Forall2 entry_of (before ++ (key, fld) :: after) info ->
  band_numbers astype_int f key = Ok n ->
  np_contains n band = true ->
  absent after band ->
  exists i, locate_loop info band FI = Ok (Some (fld, Z.of_nat i))
            /\ first_at (axis0 n) band i.
Proof.
  intros H Hn Hc Habs.
  apply Forall2_app_inv_l in H. destruct H as (ib & rest & Hb & Hr & ->).
  inversion Hr as [|kf [k e] ? ia (_ & Hfld & He) Ha]; subst. simpl in *.
  rewrite Hn in He. injection He as He. subst n.
  rewrite locate_loop_app.
  destruct (locate_loop_total ib band FI) as [r ->]. simpl.
  rewrite Hc. destruct (np_where0_first_spec _ _ Hc) as (i & -> & Hfirst). simpl.
  exists i. split; [|exact Hfirst].
  rewrite Hfld. now apply (locate_loop_absent (keys := after)).
Qed.

Lemma locate_band_last before key fld after n (band : Z) :
  groups = (before ++ (key, fld) :: after)%list ->
  readable groups ->
  band_numbers astype_int f key = Ok n ->
  np_contains n band = true ->
  absent after band ->
  exists i, locate_band astype_int f band = Ok (fld, Z.of_nat i)
            /\ first_at (axis0 n) band i.
Proof.
  intros Hg Hr Hn Hc Habs. unfold locate_band. fold groups.
  destruct (load_band_info_total Hr) as [info Hinfo]. rewrite Hinfo. simpl.
  apply load_band_info_spec in Hinfo. rewrite Hg in Hinfo.
  destruct (@locate_loop_last _ _ _ _ _ _ _ None Hinfo Hn Hc Habs) as (i & -> & Hfirst).
  simpl. eauto.
Qed.

(** Among the groups that list the band there is a last one. *)
Lemma last_listing keys (band : Z) :
  readable keys ->
  (exists key fld n, In (key, fld) keys /\ band_numbers astype_int f key = Ok n
                     /\ np_contains n band = true) ->
  exists before key fld after n,
    keys = (before ++ (key, fld) :: after)%list
    /\ band_numbers astype_int f key = Ok n /\ np_contains n band = true
    /\ absent after band.
Proof.
  induction keys as [|[key fld] keys IH]; intros Hr (k & fl & n & Hin & Hn & Hc);
    [destruct Hin|].
  assert (Hr' : readable keys) by (intros k' fl' H'; apply (Hr k' fl'); now right).
  assert (D : (exists k' fl' n', In (k', fl') keys /\ band_numbers astype_int f k' = Ok n'
                                 /\ np_contains n' band = true)
              \/ absent keys band).
  { clear - Hr'. induction keys as [|[k1 f1] keys IH].
    - right. intros ? ? ? [].
    - destruct (Hr' k1 f1 (or_introl eq_refl)) as [n1 Hn1].
      destruct (np_contains n1 band) eqn:C1.
      + left. exists k1, f1, n1. split; [now left | auto].
      + destruct IH as [(k' & fl' & n' & Hin & Hn' & Hc')|Habs].
        * intros k' fl' H'. apply (Hr' k' fl'). now right.
        * left. exists k', fl', n'. split; [now right | auto].
        * right. intros k' fl' n' [E|Hin] Hn'.
          -- injection E as <- <-. rewrite Hn1 in Hn'. now injection Hn' as <-.
          -- now apply (Habs k' fl' n'). }
  destruct D as [Hex|Habs].
  - destruct (IH Hr' Hex) as (b & k' & fl' & a & n' & -> & Hn' & Hc' & Ha).
    exists ((key, fld) :: b), k', fl', a, n'. auto.
  - destruct Hin as [E|Hin].
    + injection E as <- <-. exists [], key, fld, keys, n. auto.
    + rewrite (Habs k fl n Hin Hn) in Hc. discriminate.
Qed.

End LocateBand.

(** C2.  When the four band tables can be read and one of them lists the
    band, [locate_band] returns the data field of a group together with the
    first position at which that group's table lists the band; for a table
    of rank 1 (a sequence) the table holds the band number at that position
    and at no earlier one. *)
Theorem locate_band_finds
  (sample : Type) (astype_int : sample -> Z) (f : hdf sample) (band : Z) :
  readable astype_int f groups ->
  (exists key fld n, In (key, fld) groups /\ band_numbers astype_int f key = Ok n
                     /\ np_contains n band = true) ->
  exists key fld n i,
    In (key, fld) groups
    /\ band_numbers astype_int f key = Ok n
    /\ locate_band astype_int f band = Ok (fld, Z.of_nat i)
    /\ first_at (axis0 n) band i
    /\ (forall l, n = Arr1 l ->
          nth_error l i = Some band
          /\ (forall i', (i' < i)%nat -> nth_error l i' <> Some band)).
Proof.
  intros Hr Hex.
  destruct (@last_listing _ _ _ _ _ Hr Hex) as (b & key & fld & a & n & Hg & Hn & Hc & Ha).
  destruct (@locate_band_last _ _ _ b _ _ _ _ _ Hg Hr Hn Hc Ha) as (i & Hl & Hfirst).
  exists key, fld, n, i.
  split; [rewrite Hg; apply in_elt|]. do 3 (split; [assumption|]).
  intros l ->. now apply first_at_rank1.
Qed.

Lemma sample_file_readable : readable (fun z : Z => z) sample_file groups.
Proof.
  intros key fld H. simpl in H.
  destruct H as [E|[E|[E|[E|[]]]]]; injection E as <- <-; eexists; reflexivity.
Qed.

(** The theorem on the sample file, for band 4. *)
Lemma locate_band_finds_witness :
  exists key fld n i,
    In (key, fld) groups
    /\ band_numbers (fun z : Z => z) sample_file key = Ok n
    /\ locate_band (fun z : Z => z) sample_file 4 = Ok (fld, Z.of_nat i)
    /\ first_at (axis0 n) 4 i
    /\ (forall l, n = Arr1 l ->
          nth_error l i = Some 4
          /\ (forall i', (i' < i)%nat -> nth_error l i' <> Some 4)).
Proof.
  apply (@locate_band_finds Z (fun z => z) sample_file 4 sample_file_readable).
  exists "Band_500M", "EV_500_Aggr1km_RefSB", (Arr1 [4; 5; 6; 7]).
  split; [simpl; auto | split; reflexivity].
Defined.

(** C3.  The groups are visited in the order 250m reflective, 500m
    reflective, 1km reflective, 1km emissive; the result is the data field of
    the last group, in that order, whose table lists the band, with the
    first position of the band in that table. *)
Theorem locate_band_last_group_wins
  (sample : Type) (astype_int : sample -> Z) (f : hdf sample) (band : Z)
  (before after : list (string * string)) (key fld : string) (n : ndarray Z) :
  groups = [("Band_250M", "EV_250_Aggr1km_RefSB"); ("Band_500M", "EV_500_Aggr1km_RefSB");
            ("Band_1KM_RefSB", "EV_1KM_RefSB"); ("Band_1KM_Emissive", "EV_1KM_Emissive")]
  /\ (groups = (before ++ (key, fld) :: after)%list ->
      readable astype_int f groups ->
      band_numbers astype_int f key = Ok n ->
      np_contains n band = true ->
      absent astype_int f after band ->
      exists i, locate_band astype_int f band = Ok (fld, Z.of_nat i)
                /\ first_at (axis0 n) band i).
Proof.
  split; [reflexivity|]. intros Hg Hr Hn Hc Ha.
  exact (@locate_band_last _ _ _ before _ _ _ _ _ Hg Hr Hn Hc Ha).
Qed.

(** The theorem on the sample file: band 5 is listed by the 500m group and by
    the 1km reflective group, and the latter decides. *)
Lemma locate_band_last_group_wins_witness :
  np_contains (Arr1 [4; 5; 6; 7]) 5 = true
  /\ exists i, locate_band (fun z : Z => z) sample_file 5 = Ok ("EV_1KM_RefSB", Z.of_nat i)
               /\ first_at [[8]; [5]; [9]] 5 i.
Proof.
  split; [reflexivity|].
  refine (proj2 (@locate_band_last_group_wins Z (fun z => z) sample_file 5
                   [("Band_250M", "EV_250_Aggr1km_RefSB"); ("Band_500M", "EV_500_Aggr1km_RefSB")]
                   [("Band_1KM_Emissive", "EV_1KM_Emissive")]
                   "Band_1KM_RefSB" "EV_1KM_RefSB" (Arr1 [8; 5; 9]))
                eq_refl sample_file_readable eq_refl eq_refl _).
  intros key fld n [E|[]] Hn. injection E as <- <-.
  vm_compute in Hn. injection Hn as <-. reflexivity.
Defined.

(** C4, as the code has it.  When the four band tables can be read and none
    lists the band, [FIELD] and [INDEX] are never bound and [locate_band]
    fails at its return statement with Python's UnboundLocalError; it
    returns no (field, index) pair. *)
Theorem locate_band_absent
  (sample : Type) (astype_int : sample -> Z) (f : hdf sample) (band : Z) :
  readable astype_int f groups ->
  absent astype_int f groups band ->
  locate_band astype_int f band = Raise UnboundLocalError.
Proof.
  intros Hr Ha. unfold locate_band. fold groups.
  destruct (load_band_info_total Hr) as [info Hinfo]. rewrite Hinfo. simpl.
  apply load_band_info_spec in Hinfo.
  now rewrite (@locate_loop_absent _ _ _ _ _ _ None Hinfo Ha).
Qed.

Lemma sample_file_absent_99 : absent (fun z : Z => z) sample_file groups 99.
Proof.
  intros key fld n H Hn. simpl in H.
  destruct H as [E|[E|[E|[E|[]]]]]; injection E as <- <-;
    vm_compute in Hn; injection Hn as <-; reflexivity.
Qed.

(** The theorem on the sample file, for band 99. *)
Lemma locate_band_absent_witness :
  locate_band (fun z : Z => z) sample_file 99 = Raise UnboundLocalError.
Proof.
  exact (@locate_band_absent Z (fun z => z) sample_file 99
           sample_file_readable sample_file_absent_99).
Defined.

(** No table of the sample file lists band 99, and the failure of
    [locate_band] is not an exception of a class BandNotFoundError. *)
Lemma locate_band_not_typed_error_counterexample :
  ~ (forall band,
        absent (fun z : Z => z) sample_file groups band ->
        locate_band (fun z : Z => z) sample_file band = Raise "BandNotFoundError").
Proof.
  intros H. specialize (H 99 sample_file_absent_99).
  vm_compute in H. discriminate.
Qed.

(** ** get_MODISgeo: what is returned (C6) *)

(** Whatever the file, the first component returned is the data set at
    position 1 (longitude, normalized) and the second the data set at
    position 0 (latitude). *)
Lemma get_MODISgeo_returns (fs : filesystem F32.t) (geofile : string) (f : hdf F32.t)
      (d0 d1 : SDS F32.t) :
  fs geofile = Some f ->
  nth_error f 0 = Some d0 ->
  nth_error f 1 = Some d1 ->
  get_MODISgeo fs geofile = Ok (nd_map normalize_lon (sds_data d1), sds_data d0).
Proof.
  intros Hf H0 H1. unfold get_MODISgeo, select_index. rewrite Hf, H0, H1. reflexivity.
Qed.

(** C6 on the sample geolocation file: the pair returned is
    (longitude, latitude), not (latitude, longitude). *)
Theorem get_MODISgeo_returns_lon_first :
  get_MODISgeo sample_geo_fs "MOD03.hdf"
  = Ok (Arr2 [[F32.of_Z 350; F32.of_Z 20]], Arr2 [[F32.of_Z 10; F32.of_Z 11]])
  /\ get_MODISgeo sample_geo_fs "MOD03.hdf"
     <> Ok (Arr2 [[F32.of_Z 10; F32.of_Z 11]], Arr2 [[F32.of_Z 350; F32.of_Z 20]]).
Proof.
  split; [vm_compute; reflexivity | vm_compute; discriminate].
Qed.

(** ** load_MODIS1KMband without scaling (C7) *)

(** C7.  With [apply_scaling = False] the loader returns the plane at the
    located index along axis 0 of the located field, each sample converted by
    [astype(np.double)]: a bare array, with no NaN assigned, no mask and no
    calibration attribute read, whatever [apply_mask] is. *)
Theorem load_MODIS1KMband_unscaled
  (sample : Type) (astype_int : sample -> Z) (astype_double : sample -> F64.t)
  (fs : filesystem sample) (file : string) (band : Z) (apply_mask : bool)
  (f : hdf sample) (FIELD : string) (INDEX : Z) (d : SDS sample) (raw : array2 sample) :
  fs file = Some f ->
  locate_band astype_int f band = Ok (FIELD, INDEX) ->
  select f FIELD = Ok d ->
  plane (sds_data d) INDEX = Ok raw ->
  load_MODIS1KMband astype_int astype_double fs file band false apply_mask
  = Ok (Bare (map2d astype_double raw))
  /\ (forall i j, cell (map2d astype_double raw) i j = option_map astype_double (cell raw i j)).
Proof.
  intros Hf Hl Hd Hp. split; [|intros i j; apply cell_map2d].
  unfold load_MODIS1KMband, SD. rewrite Hf. simpl. rewrite Hl. simpl.
  rewrite Hd. simpl. rewrite Hp. reflexivity.
Qed.

(** The theorem on the sample file: band 2 is plane 1 of the 250m field, and
    the fill value 40000 > 32767 comes back as the count it is. *)
Lemma load_MODIS1KMband_unscaled_witness :
  load_MODIS1KMband (fun z : Z => z) F64.of_Z sample_fs "MOD021KM.hdf" 2 false true
  = Ok (Bare [[F64.of_Z 20; F64.of_Z 40000]]).
Proof.
  exact (proj1 (@load_MODIS1KMband_unscaled Z (fun z => z) F64.of_Z sample_fs "MOD021KM.hdf"
                  2 true sample_file "EV_250_Aggr1km_RefSB" 1
                  sample_EV_250
                  [[20; 40000]] eq_refl eq_refl eq_refl eq_refl)).
Defined.

(** ** grab_scaling (C8) *)

Lemma grab_scaling_reads
  (sample : Type) (f : hdf sample) (fld : string) (index : Z) (dataset : SDS sample)
  (vmin vmax fill sc off : F64.t) (scales offsets : list F64.t) :
  select f fld = Ok dataset ->
  grab_attr dataset "valid_range" = Ok (PList [vmin; vmax]) ->
  grab_attr dataset "_FillValue" = Ok (PNum fill) ->
  grab_attr dataset (family fld ++ "_scales") = Ok (PList scales) ->
  grab_attr dataset (family fld ++ "_offsets") = Ok (PList offsets) ->
  py_getitem scales index = Ok sc ->
  py_getitem offsets index = Ok off ->
  grab_scaling f fld index
  = Ok {| validmin := vmin; validmax := vmax; fillval := fill;
          scale := sc; offset := off |}.
Proof.
  intros Hd Hvr Hfv Hs Ho Hsc Hoff.
  unfold grab_scaling. rewrite Hd. simpl. rewrite Hvr. simpl. rewrite Hfv. simpl.
  unfold family in Hs, Ho.
  destruct (str_contains "Ref" fld); simpl in Hs, Ho; rewrite Hs; simpl; rewrite Ho; simpl;
    rewrite Hsc; simpl; rewrite Hoff; reflexivity.
Qed.

(** C8.  [grab_scaling] reads [valid_range] and [_FillValue], and the scales
    and offsets of the family chosen by the field name: [reflectance_*] when
    the name contains "Ref", [radiance_*] otherwise.  The record holds the
    two bounds, the fill value, and the element at position [index] of each
    of the two per-band sequences. *)
Theorem grab_scaling_record
  (sample : Type) (f : hdf sample) (fld : string) (index : Z) (dataset : SDS sample)
  (vmin vmax fill sc off : F64.t) (scales offsets : list F64.t) :
  select f fld = Ok dataset ->
  grab_attr dataset "valid_range" = Ok (PList [vmin; vmax]) ->
  grab_attr dataset "_FillValue" = Ok (PNum fill) ->
  grab_attr dataset (family fld ++ "_scales") = Ok (PList scales) ->
  grab_attr dataset (family fld ++ "_offsets") = Ok (PList offsets) ->
  py_getitem scales index = Ok sc ->
  py_getitem offsets index = Ok off ->
  (family fld = if str_contains "Ref" fld then "reflectance" else "radiance")
  /\ grab_scaling f fld index
     = Ok {| validmin := vmin; validmax := vmax; fillval := fill;
             scale := sc; offset := off |}.
Proof.
  intros Hd Hvr Hfv Hs Ho Hsc Hoff. split; [reflexivity|].
  now apply grab_scaling_reads with (dataset := dataset) (scales := scales)
                                    (offsets := offsets).
Qed.

(** The theorem on the sample file: the emissive field is calibrated by its
    radiance attributes, at position 1. *)
Lemma grab_scaling_record_witness :
  grab_scaling sample_file "EV_1KM_Emissive" 1
  = Ok {| validmin := F64.of_Z 0; validmax := F64.of_Z 32767; fillval := F64.of_Z 65535;
          scale := F64.of_Z 5; offset := F64.of_Z 7 |}.
Proof.
  exact (proj2 (@grab_scaling_record Z sample_file "EV_1KM_Emissive" 1
                  sample_EV_1KM_Emissive
                  (F64.of_Z 0) (F64.of_Z 32767) (F64.of_Z 65535) (F64.of_Z 5) (F64.of_Z 7)
                  (map F64.of_Z [4; 5]) (map F64.of_Z [6; 7])
                  eq_refl eq_refl eq_refl eq_refl eq_refl eq_refl eq_refl)).
Defined.

(** ** load_MODISband_old (C9) *)

(** The masking written out in the legacy loader is that of
    [mask_bad_data] with the wrapper applied. *)
Lemma legacy_mask_eq (band_data : array2 F64.t) (s : scaling) :
  let invalid :=
    map2d (fun v => (F64.gt v (validmax s) || F64.lt v (validmin s)) || F64.eq v (fillval s))
          band_data in
  let masked := setitem_mask invalid F64.nan band_data in
  let scaled := map2d (fun v => F64.mul (F64.sub v (offset s)) (scale s)) masked in
  MaskedArray scaled (map2d F64.isnan scaled) = snd (mask_bad_data band_data s true).
Proof.
  simpl. unfold mask_bad_data. rewrite invalid_mask_cells. reflexivity.
Qed.

(** When labels and band numbers name the same band position by position, the
    first position of the label is the first position of the number. *)
Lemma aligned_first (labels : list string) (nums : list Z) (label : string) (band : Z)
      (i i' : nat) :
  (forall k, nth_error labels k = Some label <-> nth_error nums k = Some band) ->
  find_first (String.eqb label) labels = Some i ->
  first_at (axis0 (Arr1 nums)) band i' ->
  i' = i.
Proof.
  intros Hal Hi Hi'.
  destruct (find_first_Some _ _ Hi) as [(x & Hx & Ex) Hmin].
  apply String.eqb_eq in Ex. subst x.
  destruct (@first_at_rank1 _ _ _ Hi') as [Hn Hmin'].
  destruct (Nat.lt_trichotomy i' i) as [Hlt|[E|Hgt]]; [|exact E|].
  - apply Hal in Hn. specialize (Hmin i' label Hlt Hn).
    rewrite String.eqb_refl in Hmin. discriminate.
  - apply Hal in Hx. now destruct (Hmin' i Hgt).
Qed.

(** Whatever it is given, the legacy loader hands back a masked array. *)
Lemma load_MODISband_old_masked
  (sample : Type) (astype_double : sample -> F64.t) (fs : filesystem sample)
  (file dataset band refrad : string) (out : band_array) :
  load_MODISband_old astype_double fs file dataset band refrad = Ok out ->
  exists data mask, out = MaskedArray data mask.
Proof.
  unfold load_MODISband_old, bind.
  repeat match goal with
         | |- context [match ?r with Ok _ => _ | Raise _ => _ end] =>
             destruct r; try discriminate
         | |- context [match ?r with Some _ => _ | None => _ end] =>
             destruct r; try discriminate
         | |- context [let '(_, _) := ?r in _] => destruct r
         end.
  intros [= <-]. eauto.
Qed.

(** The legacy loader on a well-formed data set: the plane at the position
    of the label in the comma-split [band_names], masked and calibrated as
    [mask_bad_data] does it, wrapped. *)
Lemma load_MODISband_old_result
  (sample : Type) (astype_double : sample -> F64.t) (fs : filesystem sample)
  (file dataset label refrad names : string) (f : hdf sample) (d : SDS sample)
  (i : nat) (raw : array2 sample) (scales offsets vr : list F64.t)
  (sc off vmin vmax fill : F64.t) :
  fs file = Some f ->
  select f dataset = Ok d ->
  grab_attr d "band_names" = Ok (PStr names) ->
  find_first (String.eqb label) (split_comma names) = Some i ->
  plane (sds_data d) (Z.of_nat i) = Ok raw ->
  refrad = "reflectance" \/ refrad = "radiance" ->
  grab_attr d (refrad ++ "_scales") = Ok (PList scales) ->
  grab_attr d (refrad ++ "_offsets") = Ok (PList offsets) ->
  py_getitem scales (Z.of_nat i) = Ok sc ->
  py_getitem offsets (Z.of_nat i) = Ok off ->
  grab_attr d "valid_range" = Ok (PList vr) ->
  py_getitem vr 0 = Ok vmin ->
  py_getitem vr 1 = Ok vmax ->
  grab_attr d "_FillValue" = Ok (PNum fill) ->
  load_MODISband_old astype_double fs file dataset label refrad
  = Ok (snd (mask_bad_data (map2d astype_double raw)
                           {| validmin := vmin; validmax := vmax; fillval := fill;
                              scale := sc; offset := off |} true)).
Proof.
  intros Hf Hd Hn Hi Hp Hr Hs Ho Hsc Hoff Hvr Hmin Hmax Hfill.
  rewrite <- legacy_mask_eq. simpl.
  unfold load_MODISband_old, get_hdf_data, SD. rewrite Hf. simpl. rewrite Hd. simpl.
  rewrite Hn, Hvr, Hfill. simpl. unfold list_index. rewrite Hi. simpl.
  rewrite Hp. simpl.
  destruct Hr as [-> | ->]; simpl in Hs, Ho |- *; rewrite Hs, Ho; simpl;
    rewrite Hsc; simpl; rewrite Hoff; simpl; rewrite Hmin; simpl; rewrite Hmax;
    reflexivity.
Qed.

(** C9.  The legacy loader selects the plane whose position along the
    leading axis is the position of the label in the comma-split
    [band_names] string, and returns it calibrated, masked and always wrapped
    as a masked array.  When the data set is the field of a band-table group
    and labels and band numbers name the same band position by position, the
    table-based path locates the same field and index, loads the same plane,
    and (the field's family being the stated one) returns the same masked
    array. *)
Theorem load_MODISband_old_selection
  (sample : Type) (astype_int : sample -> Z) (astype_double : sample -> F64.t)
  (fs : filesystem sample) (file dataset label refrad names : string)
  (f : hdf sample) (d : SDS sample) (i : nat) (raw : array2 sample)
  (scales offsets : list F64.t) (sc off vmin vmax fill : F64.t)
  (key : string) (band : Z) (nums : list Z) (before after : list (string * string)) :
  fs file = Some f ->
  select f dataset = Ok d ->
  grab_attr d "band_names" = Ok (PStr names) ->
  find_first (String.eqb label) (split_comma names) = Some i ->
  plane (sds_data d) (Z.of_nat i) = Ok raw ->
  refrad = "reflectance" \/ refrad = "radiance" ->
  grab_attr d (refrad ++ "_scales") = Ok (PList scales) ->
  grab_attr d (refrad ++ "_offsets") = Ok (PList offsets) ->
  py_getitem scales (Z.of_nat i) = Ok sc ->
  py_getitem offsets (Z.of_nat i) = Ok off ->
  grab_attr d "valid_range" = Ok (PList [vmin; vmax]) ->
  grab_attr d "_FillValue" = Ok (PNum fill) ->
  groups = (before ++ (key, dataset) :: after)%list ->
  readable astype_int f groups ->
  band_numbers astype_int f key = Ok (Arr1 nums) ->
  np_contains (Arr1 nums) band = true ->
  absent astype_int f after band ->
  (forall k, nth_error (split_comma names) k = Some label <-> nth_error nums k = Some band) ->
  let s := {| validmin := vmin; validmax := vmax; fillval := fill;
              scale := sc; offset := off |} in
  load_MODISband_old astype_double fs file dataset label refrad
  = Ok (snd (mask_bad_data (map2d astype_double raw) s true))
  /\ (forall (fs' : filesystem sample) file' dataset' label' refrad' out,
         load_MODISband_old astype_double fs' file' dataset' label' refrad' = Ok out ->
         exists data mask, out = MaskedArray data mask)
  /\ locate_band astype_int f band = Ok (dataset, Z.of_nat i)
  /\ load_MODIS1KMband astype_int astype_double fs file band false true
     = Ok (Bare (map2d astype_double raw))
  /\ (family dataset = refrad ->
      load_MODIS1KMband astype_int astype_double fs file band true true
      = load_MODISband_old astype_double fs file dataset label refrad).
Proof.
  intros Hf Hd Hn Hi Hp Hr Hs Ho Hsc Hoff Hvr Hfill Hg Hrd Hnums Hc Habs Hal s.
  assert (Hold : load_MODISband_old astype_double fs file dataset label refrad
                 = Ok (snd (mask_bad_data (map2d astype_double raw) s true))).
  { apply load_MODISband_old_result
      with (names := names) (f := f) (d := d) (i := i) (scales := scales)
           (offsets := offsets) (vr := [vmin; vmax]); auto. }
  destruct (@locate_band_last _ _ _ before _ _ _ _ _ Hg Hrd Hnums Hc Habs) as (i' & Hl & Hfirst).
  rewrite (@aligned_first _ _ _ _ _ _ Hal Hi Hfirst) in Hl.
  split; [exact Hold|]. split; [|split; [exact Hl|split]].
  - intros fs' file' dataset' label' refrad' out. apply load_MODISband_old_masked.
  - unfold load_MODIS1KMband, SD. rewrite Hf. simpl. rewrite Hl. simpl.
    rewrite Hd. simpl. rewrite Hp. reflexivity.
  - intros Hfam. rewrite Hold.
    unfold load_MODIS1KMband, SD. rewrite Hf. simpl. rewrite Hl. simpl.
    rewrite Hd. simpl. rewrite Hp. simpl.
    rewrite (@grab_scaling_reads _ f dataset (Z.of_nat i) d vmin vmax fill sc off
               scales offsets); try assumption; try reflexivity;
      rewrite Hfam; assumption.
Qed.

Lemma sample_file_absent_2 :
  absent (fun z : Z => z) sample_file
         [("Band_500M", "EV_500_Aggr1km_RefSB"); ("Band_1KM_RefSB", "EV_1KM_RefSB");
          ("Band_1KM_Emissive", "EV_1KM_Emissive")] 2.
Proof.
  intros key fld n H Hn. simpl in H.
  destruct H as [E|[E|[E|[]]]]; injection E as <- <-;
    vm_compute in Hn; injection Hn as <-; reflexivity.
Qed.

Lemma sample_labels_aligned (k : nat) :
  nth_error (split_comma "1,2,3") k = Some "2" <-> nth_error [1; 2; 3] k = Some 2.
Proof.
  destruct k as [|[|[|[|k]]]]; simpl; split; intros H; try discriminate; reflexivity.
Qed.

(** The theorem on the sample file: [band_names = "1,2,3"] and the label "2"
    select index 1, as band 2 does through the band table. *)
Lemma load_MODISband_old_selection_witness :
  load_MODISband_old F64.of_Z sample_fs "MOD021KM.hdf" "EV_250_Aggr1km_RefSB" "2" "reflectance"
  = Ok (MaskedArray [[F64.of_Z 60; F64.nan]] [[false; true]])
  /\ locate_band (fun z : Z => z) sample_file 2 = Ok ("EV_250_Aggr1km_RefSB", 1).
Proof.
  pose proof (@load_MODISband_old_selection Z (fun z => z) F64.of_Z sample_fs
                "MOD021KM.hdf" "EV_250_Aggr1km_RefSB" "2" "reflectance" "1,2,3"
                sample_file sample_EV_250 1 [[20; 40000]]
                (map F64.of_Z [2; 3; 4]) (map F64.of_Z [1; 0; 0])
                (F64.of_Z 3) (F64.of_Z 0) (F64.of_Z 0) (F64.of_Z 32767) (F64.of_Z 65535)
                "Band_250M" 2 [1; 2; 3] []
                [("Band_500M", "EV_500_Aggr1km_RefSB"); ("Band_1KM_RefSB", "EV_1KM_RefSB");
                 ("Band_1KM_Emissive", "EV_1KM_Emissive")]
                eq_refl eq_refl eq_refl eq_refl eq_refl (or_introl eq_refl)
                eq_refl eq_refl eq_refl eq_refl eq_refl eq_refl eq_refl
                sample_file_readable eq_refl eq_refl sample_file_absent_2
                sample_labels_aligned) as (H1 & _ & H3 & _).
  split; [exact H1 | exact H3].
Defined.

(** ** Single-precision rounding *)

Lemma digits2_pos_bounds (p : positive) :
  (2 ^ (Zpos (digits2_pos p) - 1) <= Zpos p < 2 ^ Zpos (digits2_pos p))%Z.
Proof.
  induction p as [p IH|p IH|]; simpl digits2_pos; [| |simpl; lia].
  - rewrite Pos2Z.inj_succ, (Pos2Z.inj_xI p).
    replace (Z.succ (Zpos (digits2_pos p)) - 1)%Z
      with (Z.succ (Zpos (digits2_pos p) - 1))%Z by lia.
    rewrite 2!Z.pow_succ_r by lia. lia.
  - rewrite Pos2Z.inj_succ, (Pos2Z.inj_xO p).
    replace (Z.succ (Zpos (digits2_pos p)) - 1)%Z
      with (Z.succ (Zpos (digits2_pos p) - 1))%Z by lia.
    rewrite 2!Z.pow_succ_r by lia. lia.
Qed.

Lemma iter_xO_pow (m d : positive) :
  Zpos (Pos.iter xO m d) = (Zpos m * 2 ^ Zpos d)%Z.
Proof.
  induction d as [|d IH] using Pos.peano_ind.
  - simpl. lia.
  - rewrite Pos.iter_succ, (Pos2Z.inj_xO (Pos.iter xO m d)), IH, Pos2Z.inj_succ,
      Z.pow_succ_r by lia. lia.
Qed.

(** Aligning a mantissa to a smaller exponent keeps the value. *)
Lemma shl_align_spec (m : positive) (e e' : Z) :
  (e' <= e)%Z ->
  snd (shl_align m e e') = e'
  /\ Zpos (fst (shl_align m e e')) = (Zpos m * 2 ^ (e - e'))%Z.
Proof.
  intros H. unfold shl_align.
  destruct (e' - e)%Z as [|d|d] eqn:E; simpl.
  - assert (e = e') by lia. subst. rewrite Z.sub_diag. simpl. lia.
  - lia.
  - rewrite iter_xO_pow. replace (e - e')%Z with (Zpos d) by lia. auto.
Qed.

Lemma shl_align_keep (m : positive) (e e' : Z) :
  (e <= e')%Z -> shl_align m e e' = (m, e).
Proof.
  intros H. unfold shl_align. destruct (e' - e)%Z eqn:E; try reflexivity. lia.
Qed.

Lemma shr_1_div2 (mrs : shr_record) :
  (0 <= shr_m mrs)%Z -> shr_m (shr_1 mrs) = (shr_m mrs / 2)%Z.
Proof.
  destruct mrs as [m r s]. simpl. intros H.
  destruct m as [|p|p]; [reflexivity| |lia].
  destruct p as [p|p|]; simpl shr_m.
  - rewrite (Pos2Z.inj_xI p). apply Z.div_unique with (r := 1%Z); lia.
  - rewrite (Pos2Z.inj_xO p). apply Z.div_unique with (r := 0%Z); lia.
  - reflexivity.
Qed.

Lemma iter_shr_1_div (n : positive) : forall mrs,
  (0 <= shr_m mrs)%Z ->
  shr_m (iter_pos shr_1 n mrs) = (shr_m mrs / 2 ^ Zpos n)%Z.
Proof.
  induction n as [n IH|n IH|]; intros mrs H; simpl iter_pos.
  - rewrite IH, IH, shr_1_div2 by (repeat apply iter_shr_1_nonneg; try apply shr_1_nonneg; exact H).
    rewrite !Z.div_div by lia. f_equal.
    replace (Zpos n~1) with (1 + Zpos n + Zpos n)%Z by lia.
    rewrite !Z.pow_add_r by lia. rewrite Z.pow_1_r. lia.
  - rewrite IH, IH by (repeat apply iter_shr_1_nonneg; exact H).
    rewrite Z.div_div by lia. f_equal.
    replace (Zpos n~0) with (Zpos n + Zpos n)%Z by lia.
    rewrite Z.pow_add_r by lia. reflexivity.
  - rewrite shr_1_div2 by exact H. reflexivity.
Qed.

(** In what follows a mantissa [m] at exponent [e] stands for the value
    [m * 2^e]; it is at most 360 when [m <= 45 * 2^(3 - e)]. *)

Lemma fexp32_le (m e : Z) :
  (0 <= m)%Z -> (m <= 45 * 2 ^ (3 - e))%Z -> (e <= -15)%Z ->
  (fexp 24 128 (Zdigits2 m + e) <= -15)%Z.
Proof.
  intros Hm Hb He. unfold fexp, emin.
  destruct m as [|p|p]; simpl Zdigits2; [lia| |lia].
  pose proof (digits2_pos_bounds p) as [Hd _].
  assert (H64 : (45 * 2 ^ (3 - e) < 2 ^ (9 - e))%Z).
  { replace (9 - e)%Z with (6 + (3 - e))%Z by lia.
    rewrite Z.pow_add_r by lia. change (2 ^ 6)%Z with 64%Z.
    assert (0 < 2 ^ (3 - e))%Z by (apply Z.pow_pos_nonneg; lia). lia. }
  assert (Hlt : (2 ^ (Zpos (digits2_pos p) - 1) < 2 ^ (9 - e))%Z) by lia.
  apply Z.pow_lt_mono_r_iff in Hlt; lia.
Qed.

Lemma shr_record_of_loc_m (m : Z) (l : location) : shr_m (shr_record_of_loc m l) = m.
Proof. destruct l as [|[]]; reflexivity. Qed.

(** One normalisation step keeps a value that is at most 360 (below 360)
    at most 360 (below 360), at an exponent that is still at most -15. *)
Lemma shr_fexp32_step (m e : Z) (l : location) :
  (0 <= m)%Z -> (m <= 45 * 2 ^ (3 - e))%Z -> (e <= -15)%Z ->
  let mrs := fst (shr_fexp 24 128 m e l) in
  let e' := snd (shr_fexp 24 128 m e l) in
  (e' <= -15)%Z /\ (0 <= shr_m mrs)%Z /\ (shr_m mrs <= 45 * 2 ^ (3 - e'))%Z
  /\ ((m < 45 * 2 ^ (3 - e))%Z -> (shr_m mrs < 45 * 2 ^ (3 - e'))%Z).
Proof.
  intros Hm Hb He. pose proof (fexp32_le Hm Hb He) as Hf.
  unfold shr_fexp, shr.
  destruct (fexp 24 128 (Zdigits2 m + e) - e)%Z as [|q|q] eqn:En; simpl fst; simpl snd;
    rewrite ?shr_record_of_loc_m; try (repeat split; solve [assumption | lia]).
  assert (H0 : (0 <= shr_m (shr_record_of_loc m l))%Z) by (now rewrite shr_record_of_loc_m).
  rewrite (iter_shr_1_div q _ H0), shr_record_of_loc_m.
  assert (Hq : (0 < 2 ^ Zpos q)%Z) by (apply Z.pow_pos_nonneg; lia).
  assert (Hsplit : (2 ^ (3 - e) = 2 ^ Zpos q * 2 ^ (3 - (e + Zpos q)))%Z).
  { rewrite <- Z.pow_add_r by lia. f_equal. lia. }
  split; [lia|]. split; [apply Z.div_pos; lia|]. split.
  - apply Z.div_le_upper_bound; [exact Hq|]. rewrite Hsplit in Hb. lia.
  - intros Hlt. apply Z.div_lt_upper_bound; [exact Hq|]. rewrite Hsplit in Hlt. lia.
Qed.

Lemma round_nearest_even_bounds (m : Z) (l : location) :
  (m <= round_nearest_even m l <= m + 1)%Z.
Proof.
  destruct l as [|[]]; simpl; try lia. destruct (Z.even m); lia.
Qed.

Lemma binary_round_aux32_below (m e : Z) :
  (0 <= m)%Z -> (m < 45 * 2 ^ (3 - e))%Z -> (e <= -15)%Z ->
  in_0_360 (binary_round_aux 24 128 false m e loc_Exact).
Proof.
  intros Hm Hb He. unfold binary_round_aux.
  assert (Hb' : (m <= 45 * 2 ^ (3 - e))%Z) by lia.
  pose proof (shr_fexp32_step loc_Exact Hm Hb' He) as (He1 & H01 & _ & Hlt1).
  specialize (Hlt1 Hb).
  destruct (shr_fexp 24 128 m e loc_Exact) as [r1 e1]. simpl fst in *. simpl snd in *.
  pose proof (round_nearest_even_bounds (shr_m r1) (loc_of_shr_record r1)) as Hr.
  set (m1 := round_nearest_even (shr_m r1) (loc_of_shr_record r1)) in *.
  assert (Hm1 : (0 <= m1)%Z) by lia.
  assert (Hb1 : (m1 <= 45 * 2 ^ (3 - e1))%Z) by lia.
  pose proof (shr_fexp32_step loc_Exact Hm1 Hb1 He1) as (He2 & H02 & Hle2 & _).
  destruct (shr_fexp 24 128 m1 e1 loc_Exact) as [r2 e2]. simpl fst in *. simpl snd in *.
  destruct (shr_m r2) as [|m2|m2] eqn:E2; [exact I| |lia].
  destruct (e2 <=? 128 - 24)%Z eqn:El; [|apply Z.leb_gt in El; lia].
  simpl. split; [exact He2 | exact Hle2].
Qed.

Lemma binary_round32_below (p : positive) (e : Z) :
  (Zpos p < 45 * 2 ^ (3 - e))%Z -> (e <= -15)%Z ->
  in_0_360 (binary_round 24 128 false p e).
Proof.
  intros Hb He. unfold binary_round.
  set (E := fexp 24 128 (Zpos (digits2_pos p) + e)).
  destruct (Z.le_gt_cases E e) as [HE|HE].
  - destruct (@shl_align_spec p e E HE) as [Hs Hv].
    destruct (shl_align p e E) as [mz ez]. cbn [fst snd] in Hs, Hv. subst ez.
    apply binary_round_aux32_below; [lia| |lia].
    rewrite Hv.
    replace (3 - E)%Z with ((3 - e) + (e - E))%Z by lia.
    rewrite Z.pow_add_r by lia.
    assert (Hpos : (0 < 2 ^ (e - E))%Z) by (apply Z.pow_pos_nonneg; lia).
    apply (Z.mul_lt_mono_pos_r _ _ _ Hpos) in Hb. lia.
  - rewrite shl_align_keep by lia.
    apply binary_round_aux32_below; [lia|exact Hb|exact He].
Qed.

Lemma f360_eq : f360 = S754_finite false 11796480 (-15).
Proof. vm_compute. reflexivity. Qed.

Lemma minus_360_eq : F32.of_Z (-360) = S754_finite true 11796480 (-15).
Proof. vm_compute. reflexivity. Qed.

(** The order of two finite values of the same sign, read off mantissas and
    exponents. *)
Lemma SFleb_pos_pos (m1 m2 : positive) (e1 e2 : Z) :
  (e1 < e2)%Z \/ (e1 = e2 /\ (Zpos m1 <= Zpos m2)%Z) ->
  SFleb (S754_finite false m1 e1) (S754_finite false m2 e2) = true.
Proof.
  unfold SFleb, SFcompare. intros [H|[-> H]].
  - apply Z.compare_lt_iff in H. now rewrite H.
  - rewrite Z.compare_refl.
    change (Pos.compare_cont Eq m1 m2) with (Pos.compare m1 m2).
    destruct (Pos.compare_spec m1 m2); try reflexivity. lia.
Qed.

Lemma SFltb_pos_pos (m1 m2 : positive) (e1 e2 : Z) :
  SFltb (S754_finite false m1 e1) (S754_finite false m2 e2) = true ->
  (e1 < e2)%Z \/ (e1 = e2 /\ (Zpos m1 < Zpos m2)%Z).
Proof.
  unfold SFltb, SFcompare.
  destruct (Z.compare_spec e1 e2) as [E|E|E]; try discriminate; [|now left].
  change (Pos.compare_cont Eq m1 m2) with (Pos.compare m1 m2).
  destruct (Pos.compare_spec m1 m2); try discriminate. intros _. right. lia.
Qed.

Lemma SFleb_neg_neg (m1 m2 : positive) (e1 e2 : Z) :
  SFleb (S754_finite true m1 e1) (S754_finite true m2 e2) = true ->
  (e2 < e1)%Z \/ (e2 = e1 /\ (Zpos m2 <= Zpos m1)%Z).
Proof.
  unfold SFleb, SFcompare.
  destruct (Z.compare_spec e1 e2) as [E|E|E]; try discriminate; [|now left].
  change (Pos.compare_cont Eq m1 m2) with (Pos.compare m1 m2).
  destruct (Pos.compare_spec m1 m2); try discriminate; intros _; right; lia.
Qed.

(** A canonical single-precision mantissa has at most 24 bits. *)
Lemma bounded32_mantissa (m : positive) (e : Z) :
  bounded 24 128 m e = true -> (Zpos m < 16777216)%Z.
Proof.
  unfold bounded, canonical_mantissa, fexp, emin. intros Hv.
  apply andb_prop in Hv. destruct Hv as [Hc _]. apply Z.eqb_eq in Hc.
  pose proof (digits2_pos_bounds m) as [_ Hd].
  assert (Hd24 : (Zpos (digits2_pos m) <= 24)%Z) by lia.
  apply (Z.pow_le_mono_r 2) in Hd24; [|lia].
  change (2 ^ 24)%Z with 16777216%Z in Hd24. lia.
Qed.

Lemma in_0_360_le (r : F32.t) :
  in_0_360 r -> F32.le F32.zero r = true /\ F32.le r f360 = true.
Proof.
  rewrite f360_eq. unfold F32.le, F32.zero, in_0_360.
  destruct r as [s|s| |[|] m e]; try contradiction;
    try (intros _; split; reflexivity).
  intros [He Hm]. split; [reflexivity|].
  apply SFleb_pos_pos.
  destruct (Z.eq_dec e (-15)) as [->|Hne]; [right|left; lia].
  change (2 ^ (3 - -15))%Z with 262144%Z in Hm. split; [reflexivity|lia].
Qed.

(** Adding 360 to a negative single-precision value that is at least -360
    gives a value in [0, 360]. *)
Lemma add_360_negative (m : positive) (e : Z) :
  bounded 24 128 m e = true ->
  (e <= -15)%Z ->
  (e = (-15)%Z -> (Zpos m <= 11796480)%Z) ->
  in_0_360 (SFadd 24 128 (S754_finite true m e) (S754_finite false 11796480 (-15))).
Proof.
  intros Hv He Hm15.
  pose proof (bounded32_mantissa _ _ Hv) as Hm.
  unfold SFadd. cbv zeta. rewrite Z.min_l by lia.
  rewrite (shl_align_keep m (Z.le_refl e)).
  destruct (@shl_align_spec 11796480 (-15) e He) as [_ Hk].
  set (k := fst (shl_align 11796480 (-15) e)) in *.
  cbn [fst cond_Zopp].
  assert (Hpow : (2 ^ (3 - e) = 262144 * 2 ^ (-15 - e))%Z).
  { replace (3 - e)%Z with (18 + (-15 - e))%Z by lia.
    rewrite Z.pow_add_r by lia. reflexivity. }
  assert (Hk' : (Zpos k = 45 * 2 ^ (3 - e))%Z) by (rewrite Hk, Hpow; lia).
  assert (Hmk : (Zpos m <= Zpos k)%Z).
  { destruct (Z.eq_dec e (-15)) as [E|E].
    - subst e. specialize (Hm15 eq_refl). rewrite Hk.
      change (2 ^ (-15 - -15))%Z with 1%Z. lia.
    - assert (H1 : (2 ^ 1 <= 2 ^ (-15 - e))%Z) by (apply Z.pow_le_mono_r; lia).
      change (2 ^ 1)%Z with 2%Z in H1. rewrite Hk. lia. }
  destruct (- Zpos m + Zpos k)%Z as [|p|p] eqn:Es.
  - exact I.
  - apply binary_round32_below; lia.
  - lia.
Qed.

(** ** get_MODISgeo: longitude normalization (C5) *)

(** A canonical value in [-360, 360) is mapped into [0, 360]. *)
Lemma normalize_lon_range (v : F32.t) :
  F32.valid v = true ->
  F32.le (F32.of_Z (-360)) v = true ->
  F32.lt v f360 = true ->
  in_0_360 (normalize_lon v).
Proof.
  rewrite minus_360_eq, f360_eq. unfold F32.valid, F32.le, F32.lt, normalize_lon.
  intros Hv Hlo Hhi.
  destruct v as [s|s| |[|] m e].
  - exact I.
  - destruct s; discriminate.
  - discriminate.
  - change (F32.lt (S754_finite true m e) F32.zero) with true. cbv iota.
    rewrite f360_eq. unfold F32.add.
    apply SFleb_neg_neg in Hlo.
    apply add_360_negative; [exact Hv|lia|lia].
  - change (F32.lt (S754_finite false m e) F32.zero) with false. cbv iota.
    apply SFltb_pos_pos in Hhi. unfold in_0_360.
    pose proof (bounded32_mantissa _ _ Hv) as Hm.
    destruct Hhi as [He|[-> Hlt]].
    + split; [lia|].
      assert (H19 : (2 ^ 19 <= 2 ^ (3 - e))%Z) by (apply Z.pow_le_mono_r; lia).
      change (2 ^ 19)%Z with 524288%Z in H19. lia.
    + split; [lia|]. change (2 ^ (3 - -15))%Z with 262144%Z. lia.
Qed.

(** C5, as the code has it.  The loader maps [normalize_lon] over the data
    set at position 1.  A value below 0 has 360 added to it (a
    single-precision addition); any other value, a NaN included, is left as
    it is; -10 maps to 350.  The result lies in [0, 360] for every input in
    [-360, 360): the upper bound 360 is reached by negative inputs that
    round to it. *)
Theorem normalize_lon_spec (v : F32.t) :
  (forall fs geofile f d0 d1,
      fs geofile = Some f -> nth_error f 0 = Some d0 -> nth_error f 1 = Some d1 ->
      get_MODISgeo fs geofile = Ok (nd_map normalize_lon (sds_data d1), sds_data d0))
  /\ (F32.lt v F32.zero = true -> normalize_lon v = F32.add v f360)
  /\ (F32.lt v F32.zero = false -> normalize_lon v = v)
  /\ normalize_lon (F32.of_Z (-10)) = F32.of_Z 350
  /\ (F32.valid v = true ->
      F32.le (F32.of_Z (-360)) v = true ->
      F32.lt v f360 = true ->
      F32.le F32.zero (normalize_lon v) = true /\ F32.le (normalize_lon v) f360 = true).
Proof.
  split; [intros fs geofile f d0 d1; apply get_MODISgeo_returns|].
  split; [unfold normalize_lon; now intros ->|].
  split; [unfold normalize_lon; now intros ->|].
  split; [vm_compute; reflexivity|].
  intros Hv Hlo Hhi. apply in_0_360_le. now apply normalize_lon_range.
Qed.

(** The theorem at -0.5, which is -(2^23) * 2^-24. *)
Lemma normalize_lon_spec_witness :
  F32.le F32.zero (normalize_lon (S754_finite true 8388608 (-24))) = true
  /\ F32.le (normalize_lon (S754_finite true 8388608 (-24))) f360 = true.
Proof.
  destruct (normalize_lon_spec (S754_finite true 8388608 (-24))) as (_ & _ & _ & _ & H).
  apply H; vm_compute; reflexivity.
Defined.

(** -400 is a number below 0 and maps to -40, which does not lie in
    [0, 360). *)
Lemma normalize_lon_range_counterexample :
  ~ (forall v : F32.t,
        F32.valid v = true ->
        F32.isnan_free v ->
        F32.le F32.zero (normalize_lon v) = true /\ F32.lt (normalize_lon v) f360 = true).
Proof.
  intros H.
  assert (Hv : F32.valid (F32.of_Z (-400)) = true) by (vm_compute; reflexivity).
  assert (Hn : F32.isnan_free (F32.of_Z (-400))) by (vm_compute; exact I).
  destruct (H (F32.of_Z (-400)) Hv Hn) as [H1 _].
  vm_compute in H1. discriminate.
Qed.

(** 400 is left as it is, and -400 becomes -40. *)
Lemma normalize_lon_out_of_range :
  normalize_lon (F32.of_Z 400) = F32.of_Z 400
  /\ normalize_lon (F32.of_Z (-400)) = F32.of_Z (-40).
Proof.
  split; vm_compute; reflexivity.
Qed.

(** The bound 360 is reached: -(2^-30) + 360 rounds to 360, although the
    input lies in [-180, 180). *)
Lemma normalize_lon_reaches_360 :
  F32.valid (S754_finite true 8388608 (-53)) = true
  /\ normalize_lon (S754_finite true 8388608 (-53)) = f360.
Proof.
  split; vm_compute; reflexivity.
Qed.

(* ================================================================= *)
(** * Further properties of the module *)

(** ** mask_bad_data: the wrapper, a second call, the inclusive range *)


Lemma mask_bad_data_result (band_data : array2 F64.t) (s : scaling) (m : bool) :
  snd (mask_bad_data band_data s m)
  = let d := data_of (snd (mask_bad_data band_data s false)) in
    if m then MaskedArray d (map2d F64.isnan d) else Bare d.
Proof.
  unfold mask_bad_data. destruct m; reflexivity.
Qed.

(** X2.  Calling [mask_bad_data] again on the array it has already masked changes
    that array no further and returns the same result. *)
Theorem mask_bad_data_twice (band_data : array2 F64.t) (s : scaling) (m m' : bool) :
  fst (mask_bad_data (fst (mask_bad_data band_data s m)) s m')
  = fst (mask_bad_data band_data s m)
  /\ snd (mask_bad_data (fst (mask_bad_data band_data s m)) s m')
     = snd (mask_bad_data band_data s m').
Proof.
  assert (G : forall v, (if invalid_cell s (if invalid_cell s v then F64.nan else v)
                         then F64.nan else (if invalid_cell s v then F64.nan else v))
                        = (if invalid_cell s v then F64.nan else v)).
  { intros v. destruct (invalid_cell s v) eqn:E.
    - now rewrite invalid_cell_nan.
    - now rewrite E. }
  split.
  - rewrite !mask_bad_data_input, map2d_map2d. now apply map2d_ext.
  - rewrite (mask_bad_data_result _ s m'), (mask_bad_data_result band_data s m').
    rewrite !mask_bad_data_output, mask_bad_data_input, map2d_map2d.
    rewrite (@map2d_ext _ _ _
               (fun v => F64.mul (F64.sub (if invalid_cell s v then F64.nan else v)
                                          (offset s)) (scale s)) band_data);
      [reflexivity|].
    intros v. now rewrite G.
Qed.

Lemma SFleb_not_ltb (x y : spec_float) : SFleb x y = true -> SFltb y x = false.
Proof.
  unfold SFleb, SFltb, SFcompare.
  destruct x as [sx|sx| |sx mx ex], y as [sy|sy| |sy my ey]; try reflexivity;
    try discriminate; try (destruct sx; try destruct sy; (reflexivity || discriminate));
    try (destruct sy; (reflexivity || discriminate)).
  destruct sx, sy; try reflexivity; try discriminate;
    rewrite (Z.compare_antisym ex ey);
    change (Pos.compare_cont Eq my mx) with (Pos.compare my mx);
    change (Pos.compare_cont Eq mx my) with (Pos.compare mx my);
    rewrite (Pos.compare_antisym mx my);
    destruct (ex ?= ey)%Z; simpl; try reflexivity; try discriminate;
    destruct (mx ?= my)%positive; simpl; try reflexivity; discriminate.
Qed.

(** X3.  The valid range is inclusive: a sample with validmin <= v <= validmax
    that is not the fill value is not classified invalid, so it is left as it
    is in the caller's array and calibrated in the output; the two bounds
    themselves are valid samples. *)
Theorem valid_range_inclusive
  (band_data : array2 F64.t) (s : scaling) (apply_mask : bool) (i j : nat) (v : F64.t) :
  SFleb (validmin s) v = true ->
  SFleb v (validmax s) = true ->
  F64.eq v (fillval s) = false ->
  cell band_data i j = Some v ->
  invalid_cell s v = false
  /\ cell (fst (mask_bad_data band_data s apply_mask)) i j = Some v
  /\ cell (data_of (snd (mask_bad_data band_data s apply_mask))) i j
     = Some (F64.mul (F64.sub v (offset s)) (scale s)).
Proof.
  intros Hmin Hmax Hfill Hv.
  assert (Hinv : invalid_cell s v = false).
  { unfold invalid_cell, F64.gt, F64.lt.
    now rewrite (SFleb_not_ltb _ _ Hmax), (SFleb_not_ltb _ _ Hmin), Hfill. }
  split; [exact Hinv|].
  rewrite mask_bad_data_input, mask_bad_data_output, !cell_map2d, Hv. simpl.
  now rewrite Hinv.
Qed.

(** The theorem at the upper bound 32767 of the sample calibration. *)
Lemma valid_range_inclusive_witness :
  invalid_cell sample_scaling (F64.of_Z 32767) = false
  /\ cell (fst (mask_bad_data [[F64.of_Z 32767]] sample_scaling false)) 0 0
     = Some (F64.of_Z 32767)
  /\ cell (data_of (snd (mask_bad_data [[F64.of_Z 32767]] sample_scaling false))) 0 0
     = Some (F64.mul (F64.sub (F64.of_Z 32767) (offset sample_scaling))
                     (scale sample_scaling)).
Proof.
  apply (@valid_range_inclusive [[F64.of_Z 32767]] sample_scaling false 0 0 (F64.of_Z 32767));
    vm_compute; reflexivity.
Defined.

(** ** locate_band: a missing table, and what a result means *)

Lemma select_raises {A : Type} (f : hdf A) (name : string) (e : exn) :
  select f name = Raise e -> e = HDF4Error.
Proof.
  induction f as [|d f IH]; simpl.
  - now intros [= <-].
  - destruct (String.eqb (sds_name d) name); [discriminate | exact IH].
Qed.

Lemma load_band_info_raises
  (sample : Type) (astype_int : sample -> Z) (f : hdf sample)
  (keys : list (string * string)) :
  (exists key fld e, In (key, fld) keys /\ select f key = Raise e) ->
  load_band_info astype_int f keys = Raise HDF4Error.
Proof.
  induction keys as [|[k fl] keys IH]; intros (key & fld & e & Hin & He);
    [destruct Hin|].
  simpl. destruct (select f k) as [d|e'] eqn:Ek; simpl.
  - rewrite IH; [reflexivity|].
    destruct Hin as [E|Hin]; [|now exists key, fld, e].
    injection E as -> ->. rewrite Ek in He. discriminate.
  - now rewrite (select_raises _ _ Ek).
Qed.

(** X4.  All four band tables are needed: when one of them is not in the file,
    [locate_band] fails with HDF4Error for every band number, listed by
    another table or not. *)
Theorem locate_band_missing_table
  (sample : Type) (astype_int : sample -> Z) (f : hdf sample) (band : Z)
  (key fld : string) (e : exn) :
  In (key, fld) groups ->
  select f key = Raise e ->
  locate_band astype_int f band = Raise HDF4Error.
Proof.
  intros Hin He. unfold locate_band. fold groups.
  rewrite (@load_band_info_raises _ astype_int f groups); [reflexivity|].
  now exists key, fld, e.
Qed.

(** The theorem on a file that holds the 250m table only, for its band 1. *)
Lemma locate_band_missing_table_witness :
  locate_band (fun z : Z => z)
              [ {| sds_name := "Band_250M"; sds_data := Arr1 [1; 2]; sds_attrs := [] |} ] 1
  = Raise HDF4Error.
Proof.
  apply (@locate_band_missing_table Z (fun z => z) _ 1 "Band_500M" "EV_500_Aggr1km_RefSB"
           HDF4Error).
  - simpl. auto.
  - reflexivity.
Defined.

Lemma locate_loop_sound
  (sample : Type) (astype_int : sample -> Z) (f : hdf sample) (band : Z)
  (keys : list (string * string)) : forall info FI FIELD INDEX,
  Forall2 (entry_of astype_int f) keys info ->
  locate_loop info band FI = Ok (Some (FIELD, INDEX)) ->
  FI = Some (FIELD, INDEX)
  \/ exists key n i, In (key, FIELD) keys /\ band_numbers astype_int f key = Ok n
                     /\ INDEX = Z.of_nat i /\ first_at (axis0 n) band i.
Proof.
  induction keys as [|[key fld] keys IH]; intros info FI FIELD INDEX H Hl;
    inversion H as [|kf [k e] ? info' (_ & Hfld & He) Hrest]; subst; simpl in *.
  - left. congruence.
  - destruct (np_contains (numbers e) band) eqn:C.
    + destruct (np_where0_first_spec _ _ C) as (i & Ew & Hfirst).
      rewrite Ew in Hl. simpl in Hl.
      destruct (IH _ _ _ _ Hrest Hl) as [E|(key' & n & i' & Hin & Hn & Hi & Hf)].
      * right. injection E as <- <-. exists key, (numbers e), i.
        rewrite Hfld. split; [now left|]. auto.
      * right. exists key', n, i'. split; [now right|]. auto.
    + destruct (IH _ _ _ _ Hrest Hl) as [E|(key' & n & i' & Hin & Hn & Hi & Hf)].
      * now left.
      * right. exists key', n, i'. split; [now right|]. auto.
Qed.

Lemma locate_band_result
  (sample : Type) (astype_int : sample -> Z) (f : hdf sample) (band : Z)
  (FIELD : string) (INDEX : Z) :
  locate_band astype_int f band = Ok (FIELD, INDEX) ->
  In FIELD band_names
  /\ exists key n i,
       In (key, FIELD) groups /\ band_numbers astype_int f key = Ok n
       /\ INDEX = Z.of_nat i /\ first_at (axis0 n) band i.
Proof.
  unfold locate_band. fold groups. intros H.
  destruct (load_band_info astype_int f groups) as [info|e] eqn:Hinfo; [|discriminate].
  simpl in H. apply load_band_info_spec in Hinfo.
  destruct (locate_loop info band None) as [[[F I]|]|e] eqn:Hl; simpl in H;
    try discriminate.
  injection H as -> ->.
  destruct (locate_loop_sound _ _ Hinfo Hl) as [E|(key & n & i & Hin & Hn & Hi & Hf)];
    [discriminate|].
  split; [|now exists key, n, i].
  apply (in_combine_r band_lists band_names key FIELD Hin).
Qed.

(** X5.  Whatever [locate_band] returns is the data field of one of the four
    groups and a position, not negative, at which that group's table lists
    the band for the first time. *)
Theorem locate_band_sound
  (sample : Type) (astype_int : sample -> Z) (f : hdf sample) (band : Z)
  (FIELD : string) (INDEX : Z) :
  locate_band astype_int f band = Ok (FIELD, INDEX) ->
  In FIELD band_names
  /\ exists key n i,
       In (key, FIELD) groups /\ band_numbers astype_int f key = Ok n
       /\ INDEX = Z.of_nat i /\ first_at (axis0 n) band i.
Proof.
  apply locate_band_result.
Qed.

(** The theorem on the sample file, for band 7. *)
Lemma locate_band_sound_witness :
  In "EV_500_Aggr1km_RefSB" band_names
  /\ exists key n i,
       In (key, "EV_500_Aggr1km_RefSB") groups
       /\ band_numbers (fun z : Z => z) sample_file key = Ok n
       /\ 3 = Z.of_nat i /\ first_at (axis0 n) 7 i.
Proof.
  apply (@locate_band_sound Z (fun z => z) sample_file 7 "EV_500_Aggr1km_RefSB" 3).
  vm_compute. reflexivity.
Defined.

(** ** load_MODIS1KMband: the scaled path and its bounds *)

(** X6.  With [apply_scaling = True] the loader returns only the plane at the
    located index, masked and calibrated with the record of that field and
    index: a sample that is out of range or the fill value comes back as NaN,
    any other as (sample - offset) * scale. *)
Theorem load_MODIS1KMband_scaled
  (sample : Type) (astype_int : sample -> Z) (astype_double : sample -> F64.t)
  (fs : filesystem sample) (file : string) (band : Z) (apply_mask : bool)
  (f : hdf sample) (FIELD : string) (INDEX : Z) (d : SDS sample) (raw : array2 sample)
  (s : scaling) :
  fs file = Some f ->
  locate_band astype_int f band = Ok (FIELD, INDEX) ->
  select f FIELD = Ok d ->
  plane (sds_data d) INDEX = Ok raw ->
  grab_scaling f FIELD INDEX = Ok s ->
  exists out,
    load_MODIS1KMband astype_int astype_double fs file band true apply_mask = Ok out
    /\ (forall i j, cell (data_of out) i j
                    = option_map (fun x => if invalid_cell s (astype_double x) then F64.nan
                                           else F64.mul (F64.sub (astype_double x) (offset s))
                                                        (scale s))
                                 (cell raw i j))
    /\ (apply_mask = true -> exists mask, out = MaskedArray (data_of out) mask)
    /\ (apply_mask = false -> out = Bare (data_of out)).
Proof.
  intros Hf Hl Hd Hp Hs.
  exists (snd (mask_bad_data (map2d astype_double raw) s apply_mask)).
  split; [|split; [|split]].
  - unfold load_MODIS1KMband, SD. rewrite Hf. simpl. rewrite Hl. simpl.
    rewrite Hd. simpl. rewrite Hp. simpl. rewrite Hs. reflexivity.
  - intros i j. rewrite mask_bad_data_output, map2d_map2d, cell_map2d.
    destruct (cell raw i j) as [x|]; simpl; [|reflexivity].
    destruct (invalid_cell s (astype_double x)); reflexivity.
  - intros ->. rewrite mask_bad_data_result. simpl. eauto.
  - intros ->. rewrite mask_bad_data_result. reflexivity.
Qed.

(** The theorem on the sample file: band 2 with scaling is plane 1 of the
    250m field, 20 * 3 = 60 and the out-of-range count 40000 masked. *)
Lemma load_MODIS1KMband_scaled_witness :
  exists out,
    load_MODIS1KMband (fun z : Z => z) F64.of_Z sample_fs "MOD021KM.hdf" 2 true false = Ok out
    /\ cell (data_of out) 0 0 = Some (F64.of_Z 60)
    /\ cell (data_of out) 0 1 = Some F64.nan.
Proof.
  destruct (@load_MODIS1KMband_scaled Z (fun z => z) F64.of_Z sample_fs "MOD021KM.hdf" 2 false
              sample_file "EV_250_Aggr1km_RefSB" 1 sample_EV_250 [[20; 40000]]
              {| validmin := F64.of_Z 0; validmax := F64.of_Z 32767;
                 fillval := F64.of_Z 65535; scale := F64.of_Z 3; offset := F64.of_Z 0 |}
              eq_refl eq_refl eq_refl eq_refl eq_refl) as (out & Ho & Hc & _).
  exists out. split; [exact Ho|]. split.
  - rewrite (Hc 0%nat 0%nat). vm_compute. reflexivity.
  - rewrite (Hc 0%nat 1%nat). vm_compute. reflexivity.
Defined.

Lemma py_getitem_beyond {A : Type} (l : list A) (i : Z) :
  (Z.of_nat (List.length l) <= i)%Z \/ (i < - Z.of_nat (List.length l))%Z ->
  py_getitem l i = Raise IndexError.
Proof.
  intros H. unfold py_getitem.
  destruct (i <? 0)%Z eqn:Ei.
  - apply Z.ltb_lt in Ei.
    destruct ((0 <=? i + Z.of_nat (List.length l)) && (i + Z.of_nat (List.length l) <? Z.of_nat (List.length l)))%Z eqn:E;
      [|reflexivity].
    apply andb_prop in E. destruct E as [E1 E2]. apply Z.leb_le in E1. lia.
  - apply Z.ltb_ge in Ei.
    destruct ((0 <=? i) && (i <? Z.of_nat (List.length l)))%Z eqn:E; [|reflexivity].
    apply andb_prop in E. destruct E as [E1 E2]. apply Z.ltb_lt in E2. lia.
Qed.

(** X7.  The band table and the data field must agree: when the located field is
    not a rank-3 array with a plane at the located index, the loader fails
    with IndexError, with or without scaling. *)
Theorem load_MODIS1KMband_no_plane
  (sample : Type) (astype_int : sample -> Z) (astype_double : sample -> F64.t)
  (fs : filesystem sample) (file : string) (band : Z) (apply_scaling apply_mask : bool)
  (f : hdf sample) (FIELD : string) (INDEX : Z) (d : SDS sample) :
  fs file = Some f ->
  locate_band astype_int f band = Ok (FIELD, INDEX) ->
  select f FIELD = Ok d ->
  (forall l, sds_data d = Arr3 l -> (Z.of_nat (List.length l) <= INDEX)%Z) ->
  load_MODIS1KMband astype_int astype_double fs file band apply_scaling apply_mask
  = Raise IndexError.
Proof.
  intros Hf Hl Hd Hn.
  unfold load_MODIS1KMband, SD. rewrite Hf. simpl. rewrite Hl. simpl. rewrite Hd. simpl.
  assert (Hp : plane (sds_data d) INDEX = Raise IndexError).
  { unfold plane. destruct (sds_data d) as [l|l|l]; try reflexivity.
    apply py_getitem_beyond. left. now apply Hn. }
  rewrite Hp. reflexivity.
Qed.

(** The theorem on a file whose 250m table lists three bands while its data
    field holds two planes, for band 3. *)
Lemma load_MODIS1KMband_no_plane_witness :
  load_MODIS1KMband (fun z : Z => z) F64.of_Z
     (fun _ => Some [ {| sds_name := "Band_250M"; sds_data := Arr1 [1; 2; 3]; sds_attrs := [] |};
                      {| sds_name := "Band_500M"; sds_data := Arr1 [4]; sds_attrs := [] |};
                      {| sds_name := "Band_1KM_RefSB"; sds_data := Arr1 [8]; sds_attrs := [] |};
                      {| sds_name := "Band_1KM_Emissive"; sds_data := Arr1 [20];
                         sds_attrs := [] |};
                      {| sds_name := "EV_250_Aggr1km_RefSB";
                         sds_data := Arr3 [[[10; 11]]; [[20; 21]]]; sds_attrs := [] |} ])
     "short.hdf" 3 false false
  = Raise IndexError.
Proof.
  eapply (@load_MODIS1KMband_no_plane Z (fun z => z) F64.of_Z _ "short.hdf" 3 false false
            _ "EV_250_Aggr1km_RefSB" 2
            {| sds_name := "EV_250_Aggr1km_RefSB";
               sds_data := Arr3 [[[10; 11]]; [[20; 21]]]; sds_attrs := [] |}).
  - reflexivity.
  - vm_compute. reflexivity.
  - reflexivity.
  - intros l [= <-]. simpl. lia.
Defined.

(** ** grab_scaling: the index *)

Lemma py_getitem_wrap {A : Type} (l : list A) (i : Z) :
  (- Z.of_nat (List.length l) <= i < 0)%Z ->
  py_getitem l i = py_getitem l (i + Z.of_nat (List.length l)).
Proof.
  intros H. unfold py_getitem.
  replace (i <? 0)%Z with true by (symmetry; apply Z.ltb_lt; lia).
  replace (i + Z.of_nat (List.length l) <? 0)%Z with false
    by (symmetry; apply Z.ltb_ge; lia).
  reflexivity.
Qed.

(** X9.  The index of [grab_scaling] is a Python index into the per-band
    sequences of [n] values: an index in [-n, 0) counts from the end, and an
    index outside [-n, n) makes the function fail with IndexError. *)
Theorem grab_scaling_index
  (sample : Type) (f : hdf sample) (fld : string) (index : Z) (dataset : SDS sample)
  (vmin vmax fill : F64.t) (scales offsets : list F64.t) :
  select f fld = Ok dataset ->
  grab_attr dataset "valid_range" = Ok (PList [vmin; vmax]) ->
  grab_attr dataset "_FillValue" = Ok (PNum fill) ->
  grab_attr dataset (family fld ++ "_scales") = Ok (PList scales) ->
  grab_attr dataset (family fld ++ "_offsets") = Ok (PList offsets) ->
  List.length offsets = List.length scales ->
  let n := Z.of_nat (List.length scales) in
  ((n <= index)%Z \/ (index < - n)%Z -> grab_scaling f fld index = Raise IndexError)
  /\ ((- n <= index < 0)%Z -> grab_scaling f fld index = grab_scaling f fld (index + n)).
Proof.
  intros Hd Hvr Hfv Hs Ho Hlen n.
  assert (Hg : forall i, grab_scaling f fld i
                         = (sc <- getitem (PList scales) i ;;
                            off <- getitem (PList offsets) i ;;
                            sc' <- as_float sc ;; off' <- as_float off ;;
                            Ok {| validmin := vmin; validmax := vmax; fillval := fill;
                                  scale := sc'; offset := off' |})).
  { intros i. unfold grab_scaling. rewrite Hd. simpl. rewrite Hvr. simpl. rewrite Hfv. simpl.
    unfold family in Hs, Ho.
    destruct (str_contains "Ref" fld); simpl in Hs, Ho; rewrite Hs; simpl; rewrite Ho; simpl;
      destruct (py_getitem scales i); simpl; try reflexivity;
      destruct (py_getitem offsets i); reflexivity. }
  split.
  - intros H. rewrite Hg. simpl. rewrite (@py_getitem_beyond _ scales index H). reflexivity.
  - intros H. rewrite !Hg. simpl.
    rewrite (@py_getitem_wrap _ scales index H).
    rewrite (@py_getitem_wrap _ offsets index) by (rewrite Hlen; exact H).
    rewrite Hlen. reflexivity.
Qed.

(** The theorem on the sample file: index -1 of the emissive field is its
    last band, index 1. *)
Lemma grab_scaling_index_witness :
  grab_scaling sample_file "EV_1KM_Emissive" (-1)
  = grab_scaling sample_file "EV_1KM_Emissive" (-1 + 2)
  /\ grab_scaling sample_file "EV_1KM_Emissive" 2 = Raise IndexError.
Proof.
  destruct (@grab_scaling_index Z sample_file "EV_1KM_Emissive" (-1) sample_EV_1KM_Emissive
              (F64.of_Z 0) (F64.of_Z 32767) (F64.of_Z 65535)
              (map F64.of_Z [4; 5]) (map F64.of_Z [6; 7])
              eq_refl eq_refl eq_refl eq_refl eq_refl eq_refl) as [_ H2].
  destruct (@grab_scaling_index Z sample_file "EV_1KM_Emissive" 2 sample_EV_1KM_Emissive
              (F64.of_Z 0) (F64.of_Z 32767) (F64.of_Z 65535)
              (map F64.of_Z [4; 5]) (map F64.of_Z [6; 7])
              eq_refl eq_refl eq_refl eq_refl eq_refl eq_refl) as [H1 _].
  split; [apply H2; simpl; lia | apply H1; simpl; lia].
Defined.

(** ** load_MODISband_old: what makes it fail *)

Lemma find_first_absent {A : Type} (p : A -> bool) (l : list A) :
  (forall x, In x l -> p x = false) -> find_first p l = None.
Proof.
  induction l as [|x l IH]; intros H; simpl; [reflexivity|].
  rewrite (H x (or_introl eq_refl)). rewrite IH; [reflexivity|].
  intros y Hy. apply H. now right.
Qed.

(** A piece of [s.split(",")] holds no comma. *)
Lemma split_comma_pieces (s piece : string) :
  In piece (split_comma s) -> ~ In ","%char (list_ascii_of_string piece).
Proof.
  revert piece. induction s as [|c r IH]; intros piece; simpl.
  - intros [<-|[]]. simpl. tauto.
  - destruct (Ascii.eqb c ",") eqn:Ec.
    + intros [<-|H]; [simpl; tauto | now apply IH].
    + destruct (split_comma r) as [|h t] eqn:Es.
      * intros [<-|[]]. simpl. intros [E|[]]. subst c. now rewrite Ascii.eqb_refl in Ec.
      * intros [<-|H].
        -- simpl. intros [E|Hin].
           ++ subst c. now rewrite Ascii.eqb_refl in Ec.
           ++ apply (IH h); [now left | exact Hin].
        -- apply IH. now right.
Qed.

Lemma load_MODISband_old_label
  (sample : Type) (astype_double : sample -> F64.t) (fs : filesystem sample)
  (file dataset label refrad names : string) (f : hdf sample) (d : SDS sample) :
  fs file = Some f ->
  select f dataset = Ok d ->
  grab_attr d "band_names" = Ok (PStr names) ->
  ~ In label (split_comma names) ->
  load_MODISband_old astype_double fs file dataset label refrad = Raise ValueError.
Proof.
  intros Hf Hd Hn Hlab.
  unfold load_MODISband_old, get_hdf_data, SD. rewrite Hf. simpl. rewrite Hd. simpl.
  rewrite Hn. simpl. unfold list_index.
  rewrite find_first_absent; [reflexivity|].
  intros x Hx. apply String.eqb_neq. intros ->. contradiction.
Qed.

(** X10.  A label that is not one of the comma-separated names of the data set
    makes the legacy loader fail with ValueError, whatever else it is given;
    a label that contains a comma can be no such name. *)
Theorem load_MODISband_old_unknown_label
  (sample : Type) (astype_double : sample -> F64.t) (fs : filesystem sample)
  (file dataset label refrad names : string) (f : hdf sample) (d : SDS sample) :
  fs file = Some f ->
  select f dataset = Ok d ->
  grab_attr d "band_names" = Ok (PStr names) ->
  ~ In label (split_comma names) \/ In ","%char (list_ascii_of_string label) ->
  load_MODISband_old astype_double fs file dataset label refrad = Raise ValueError.
Proof.
  intros Hf Hd Hn H.
  apply load_MODISband_old_label with (names := names) (f := f) (d := d); try assumption.
  destruct H as [H|H]; [exact H|].
  intros Hin. exact (split_comma_pieces _ _ Hin H).
Qed.

(** The theorem on the sample file: "1,2" is not a name of "1,2,3". *)
Lemma load_MODISband_old_unknown_label_witness :
  load_MODISband_old F64.of_Z sample_fs "MOD021KM.hdf" "EV_250_Aggr1km_RefSB" "1,2"
                     "reflectance"
  = Raise ValueError.
Proof.
  apply (@load_MODISband_old_unknown_label Z F64.of_Z sample_fs "MOD021KM.hdf"
           "EV_250_Aggr1km_RefSB" "1,2" "reflectance" "1,2,3" sample_file sample_EV_250
           eq_refl eq_refl eq_refl).
  right. simpl. auto.
Defined.

(** X11.  When [refrad] is neither 'reflectance' nor 'radiance' the legacy loader
    returns nothing, whatever the file: the message is printed and the
    function goes on to fail; on a well-formed data set the failure is the
    UnboundLocalError of the calibration that was never read. *)
Theorem load_MODISband_old_bad_refrad
  (sample : Type) (astype_double : sample -> F64.t) (fs : filesystem sample)
  (file dataset label refrad names : string) (f : hdf sample) (d : SDS sample)
  (i : nat) (raw : array2 sample) (vr : list F64.t) (vmin vmax fill : F64.t) :
  refrad <> "reflectance" ->
  refrad <> "radiance" ->
  (forall (fs' : filesystem sample) file' dataset' label' out,
      load_MODISband_old astype_double fs' file' dataset' label' refrad <> Ok out)
  /\ (fs file = Some f ->
      select f dataset = Ok d ->
      grab_attr d "band_names" = Ok (PStr names) ->
      find_first (String.eqb label) (split_comma names) = Some i ->
      plane (sds_data d) (Z.of_nat i) = Ok raw ->
      grab_attr d "valid_range" = Ok (PList vr) ->
      py_getitem vr 0 = Ok vmin ->
      py_getitem vr 1 = Ok vmax ->
      grab_attr d "_FillValue" = Ok (PNum fill) ->
      load_MODISband_old astype_double fs file dataset label refrad
      = Raise UnboundLocalError).
Proof.
  intros Hr1 Hr2. apply String.eqb_neq in Hr1, Hr2. split.
  - intros fs' file' dataset' label' out.
    unfold load_MODISband_old. rewrite Hr1, Hr2. unfold bind.
    repeat match goal with
           | |- context [match ?r with Ok _ => _ | Raise _ => _ end] =>
               destruct r; try discriminate
           | |- context [match ?r with Some _ => _ | None => _ end] =>
               destruct r; try discriminate
           | |- context [let '(_, _) := ?r in _] => destruct r
           end.
  - intros Hf Hd Hn Hi Hp Hvr Hmin Hmax Hfill.
    unfold load_MODISband_old, get_hdf_data, SD. rewrite Hr1, Hr2, Hf. simpl.
    rewrite Hd. simpl. rewrite Hn, Hvr, Hfill. simpl. unfold list_index. rewrite Hi. simpl.
    rewrite Hp. simpl. rewrite Hmin. simpl. rewrite Hmax. reflexivity.
Qed.

(** The theorem on the sample file, with [refrad = "ref"]. *)
Lemma load_MODISband_old_bad_refrad_witness :
  load_MODISband_old F64.of_Z sample_fs "MOD021KM.hdf" "EV_250_Aggr1km_RefSB" "2" "ref"
  = Raise UnboundLocalError.
Proof.
  refine (proj2 (@load_MODISband_old_bad_refrad Z F64.of_Z sample_fs "MOD021KM.hdf"
                   "EV_250_Aggr1km_RefSB" "2" "ref" "1,2,3" sample_file sample_EV_250
                   1 [[20; 40000]] [F64.of_Z 0; F64.of_Z 32767]
                   (F64.of_Z 0) (F64.of_Z 32767) (F64.of_Z 65535) _ _)
                eq_refl eq_refl eq_refl eq_refl eq_refl eq_refl eq_refl eq_refl eq_refl);
    discriminate.
Defined.

(** ** The geolocation readers *)

Lemma in_0_360_not_negative (r : F32.t) : in_0_360 r -> F32.lt r F32.zero = false.
Proof.
  unfold in_0_360, F32.lt, F32.zero, SFltb.
  destruct r as [s|s| |[|] m e]; try contradiction; reflexivity.
Qed.

(** X12.  Normalizing twice is normalizing once, for every longitude that is not
    below 0, and for every canonical longitude in [-360, 360): the result of
    [get_MODISgeo] is stable under its own normalization. *)
Theorem normalize_lon_idempotent (v : F32.t) :
  F32.lt v F32.zero = false
  \/ (F32.valid v = true /\ F32.le (F32.of_Z (-360)) v = true /\ F32.lt v f360 = true) ->
  normalize_lon (normalize_lon v) = normalize_lon v.
Proof.
  intros [H|(Hv & Hlo & Hhi)].
  - unfold normalize_lon. now rewrite !H.
  - pose proof (in_0_360_not_negative _ (normalize_lon_range v Hv Hlo Hhi)) as H.
    unfold normalize_lon at 1. now rewrite H.
Qed.

(** The theorem at -10: 350 stays 350. *)
Lemma normalize_lon_idempotent_witness :
  normalize_lon (normalize_lon (F32.of_Z (-10))) = normalize_lon (F32.of_Z (-10)).
Proof.
  apply normalize_lon_idempotent. right. repeat split; vm_compute; reflexivity.
Defined.

(** X13.  [get_MODISgeo] succeeds exactly on a file that opens and holds at least
    two data sets, whatever their names, ranks and attributes.  A file that
    does not open is reported by its handler and then fails with
    UnboundLocalError; a file with fewer than two data sets fails with
    HDF4Error. *)
Theorem get_MODISgeo_cases (fs : filesystem F32.t) (geofile : string) :
  (fs geofile = None -> get_MODISgeo fs geofile = Raise UnboundLocalError)
  /\ (forall f, fs geofile = Some f -> (List.length f < 2)%nat ->
                get_MODISgeo fs geofile = Raise HDF4Error)
  /\ (forall f, fs geofile = Some f -> (2 <= List.length f)%nat ->
                exists d0 d1, nth_error f 0 = Some d0 /\ nth_error f 1 = Some d1
                              /\ get_MODISgeo fs geofile
                                 = Ok (nd_map normalize_lon (sds_data d1), sds_data d0)).
Proof.
  unfold get_MODISgeo, select_index. split; [|split].
  - now intros ->.
  - intros f -> Hlen. destruct f as [|d0 [|d1 f]]; simpl in *; try reflexivity. lia.
  - intros f -> Hlen. destruct f as [|d0 [|d1 f]]; simpl in *; try lia.
    exists d0, d1. auto.
Qed.

(** The theorem on the sample file system: one path opens, another does not. *)
Lemma get_MODISgeo_cases_witness :
  get_MODISgeo sample_geo_fs "missing.hdf" = Raise UnboundLocalError
  /\ exists d0 d1, nth_error sample_geo 0 = Some d0 /\ nth_error sample_geo 1 = Some d1
                   /\ get_MODISgeo sample_geo_fs "MOD03.hdf"
                      = Ok (nd_map normalize_lon (sds_data d1), sds_data d0).
Proof.
  destruct (get_MODISgeo_cases sample_geo_fs "missing.hdf") as (H1 & _ & _).
  destruct (get_MODISgeo_cases sample_geo_fs "MOD03.hdf") as (_ & _ & H3).
  split; [exact (H1 eq_refl) | apply (H3 sample_geo eq_refl); simpl; lia].
Defined.

(** X14.  On a file whose first two data sets are named Latitude and Longitude,
    [load_coords] returns (latitude, longitude) as stored, and
    [get_MODISgeo] returns the same two arrays in the opposite order, the
    longitude normalized. *)
Theorem load_coords_get_MODISgeo
  (fs : filesystem F32.t) (geofile : string) (f : hdf F32.t) (d0 d1 : SDS F32.t) :
  fs geofile = Some f ->
  named_geo f d0 d1 ->
  load_coords f = Ok (sds_data d0, sds_data d1)
  /\ get_MODISgeo fs geofile = Ok (nd_map normalize_lon (sds_data d1), sds_data d0).
Proof.
  intros Hf (H0 & H1 & N0 & N1). split.
  - unfold load_coords.
    destruct f as [|e0 [|e1 f]]; simpl in H0, H1; try discriminate.
    injection H0 as ->. injection H1 as ->.
    simpl. rewrite N0, N1. simpl. reflexivity.
  - now apply get_MODISgeo_returns with (f := f).
Qed.

(** The theorem on the sample geolocation file. *)
Lemma load_coords_get_MODISgeo_witness :
  load_coords sample_geo
  = Ok (Arr2 [[F32.of_Z 10; F32.of_Z 11]], Arr2 [[F32.of_Z (-10); F32.of_Z 20]])
  /\ get_MODISgeo sample_geo_fs "MOD03.hdf"
     = Ok (nd_map normalize_lon (Arr2 [[F32.of_Z (-10); F32.of_Z 20]]),
           Arr2 [[F32.of_Z 10; F32.of_Z 11]]).
Proof.
  apply (@load_coords_get_MODISgeo sample_geo_fs "MOD03.hdf" sample_geo
           {| sds_name := "Latitude"; sds_data := Arr2 [[F32.of_Z 10; F32.of_Z 11]];
              sds_attrs := [] |}
           {| sds_name := "Longitude"; sds_data := Arr2 [[F32.of_Z (-10); F32.of_Z 20]];
              sds_attrs := [] |} eq_refl).
  repeat split; reflexivity.
Defined.

(** ** print_hdf_contents *)

Lemma dict_keys_In (l : list string) (x : string) : In x (dict_keys l) <-> In x l.
Proof.
  induction l as [|y l IH]; simpl; [tauto|].
  rewrite filter_In, IH. split.
  - intros [E|[H _]]; auto.
  - intros [E|H]; [now left|].
    destruct (String.eqb y x) eqn:Eyx.
    + left. now apply String.eqb_eq.
    + right. split; [exact H | reflexivity].
Qed.

Lemma dict_keys_NoDup (l : list string) : NoDup (dict_keys l).
Proof.
  induction l as [|y l IH]; simpl; constructor.
  - rewrite filter_In. intros [_ H]. now rewrite String.eqb_refl in H.
  - now apply NoDup_filter.
Qed.

Lemma select_Ok_iff {A : Type} (f : hdf A) (name : string) :
  (exists d, select f name = Ok d) <-> In name (map (@sds_name A) f).
Proof.
  induction f as [|d f IH]; simpl.
  - split; [intros [d H]; discriminate | tauto].
  - destruct (String.eqb (sds_name d) name) eqn:E.
    + apply String.eqb_eq in E. split; [now left | eauto].
    + apply String.eqb_neq in E. rewrite IH. tauto.
Qed.

(** X15.  The names [print_hdf_contents] returns are exactly the names that
    [select] finds in the file, each listed once; a file that does not open
    gives HDF4Error. *)
Theorem print_hdf_contents_names
  (A : Type) (fs : filesystem A) (file : string) :
  (fs file = None -> print_hdf_contents fs file = Raise HDF4Error)
  /\ (forall f, fs file = Some f ->
        exists names,
          print_hdf_contents fs file = Ok names
          /\ NoDup names
          /\ (forall name, In name names <-> exists d, select f name = Ok d)).
Proof.
  unfold print_hdf_contents, SD. split.
  - now intros ->.
  - intros f ->. simpl. exists (dict_keys (map (@sds_name A) f)).
    split; [reflexivity|]. split; [apply dict_keys_NoDup|].
    intros name. now rewrite dict_keys_In, select_Ok_iff.
Qed.

(** The theorem on the sample geolocation file. *)
Lemma print_hdf_contents_names_witness :
  exists names,
    print_hdf_contents sample_geo_fs "MOD03.hdf" = Ok names
    /\ NoDup names
    /\ (forall name, In name names <-> exists d, select sample_geo name = Ok d).
Proof.
  exact (proj2 (print_hdf_contents_names sample_geo_fs "MOD03.hdf") sample_geo eq_refl).
Defined.

(** ** get_hdf_data and the loader on a band that is not there *)

(** X16.  [get_hdf_data] fails with HDF4Error and nothing else, and it succeeds
    exactly when the file opens, the data set is in it and, if an attribute
    is asked for, the data set has that attribute. *)
Theorem get_hdf_data_cases
  (sample : Type) (fs : filesystem sample) (file dataset : string) (attr : option string) :
  (forall e, get_hdf_data fs file dataset attr = Raise e -> e = HDF4Error)
  /\ ((exists r, get_hdf_data fs file dataset attr = Ok r)
      <-> exists f d, fs file = Some f /\ select f dataset = Ok d
                      /\ (forall a, attr = Some a ->
                                    exists x, find_attr (sds_attrs d) a = Some x)).
Proof.
  unfold get_hdf_data, SD, grab_attr. split.
  - intros e. destruct (fs file) as [f|]; simpl; [|now intros [= <-]].
    destruct (select f dataset) as [d|e'] eqn:Ed; simpl.
    + destruct attr as [a|]; [|discriminate].
      destruct (find_attr (sds_attrs d) a); simpl; [discriminate | now intros [= <-]].
    + intros [= <-]. exact (select_raises _ _ Ed).
  - split.
    + intros [r H]. destruct (fs file) as [f|]; simpl in H; [|discriminate].
      destruct (select f dataset) as [d|e'] eqn:Ed; simpl in H; [|discriminate].
      exists f, d. split; [reflexivity|]. split; [exact Ed|].
      intros a ->. destruct (find_attr (sds_attrs d) a) as [x|]; [eauto | discriminate].
    + intros (f & d & -> & Hd & Ha). simpl. rewrite Hd. simpl.
      destruct attr as [a|]; [|eauto].
      destruct (Ha a eq_refl) as [x ->]. simpl. eauto.
Qed.

(** The theorem on the sample file system: the data of the 250m field can be
    read, an attribute it does not have cannot. *)
Lemma get_hdf_data_cases_witness :
  (exists r, get_hdf_data sample_fs "MOD021KM.hdf" "EV_250_Aggr1km_RefSB" None = Ok r)
  /\ get_hdf_data sample_fs "MOD021KM.hdf" "EV_250_Aggr1km_RefSB" (Some "radiance_scales")
     = Raise HDF4Error.
Proof.
  split.
  - apply (proj2 (get_hdf_data_cases sample_fs "MOD021KM.hdf" "EV_250_Aggr1km_RefSB" None)).
    exists sample_file, sample_EV_250. repeat split. discriminate.
  - destruct (get_hdf_data sample_fs "MOD021KM.hdf" "EV_250_Aggr1km_RefSB"
                           (Some "radiance_scales")) as [r|e] eqn:E.
    + vm_compute in E. discriminate.
    + now rewrite (proj1 (get_hdf_data_cases sample_fs "MOD021KM.hdf" "EV_250_Aggr1km_RefSB"
                            (Some "radiance_scales")) e E).
Defined.

(** X8.  A band number that none of the four tables lists makes the loader fail
    with UnboundLocalError, with or without scaling; no array is returned. *)
Theorem load_MODIS1KMband_absent_band
  (sample : Type) (astype_int : sample -> Z) (astype_double : sample -> F64.t)
  (fs : filesystem sample) (file : string) (band : Z) (apply_scaling apply_mask : bool)
  (f : hdf sample) :
  fs file = Some f ->
  readable astype_int f groups ->
  absent astype_int f groups band ->
  load_MODIS1KMband astype_int astype_double fs file band apply_scaling apply_mask
  = Raise UnboundLocalError.
Proof.
  intros Hf Hr Ha.
  assert (Hl : locate_band astype_int f band = Raise UnboundLocalError).
  { unfold locate_band. fold groups.
    destruct (load_band_info_total Hr) as [info Hinfo]. rewrite Hinfo. simpl.
    apply load_band_info_spec in Hinfo.
    now rewrite (@locate_loop_absent _ _ _ _ _ _ None Hinfo Ha). }
  unfold load_MODIS1KMband, SD. rewrite Hf. simpl. rewrite Hl. reflexivity.
Qed.

(** The theorem on the sample file, for band 99. *)
Lemma load_MODIS1KMband_absent_band_witness :
  load_MODIS1KMband (fun z : Z => z) F64.of_Z sample_fs "MOD021KM.hdf" 99 true false
  = Raise UnboundLocalError.
Proof.
  exact (@load_MODIS1KMband_absent_band Z (fun z => z) F64.of_Z sample_fs "MOD021KM.hdf" 99
           true false sample_file eq_refl sample_file_readable sample_file_absent_99).
Defined.
